(** * MHT-CET cutoff table: the query pipeline and the data source adapter

    A shallow embedding of [client/pages/Index.tsx]: the [fetchData] fallback
    chain, the [filteredAndSortedData] / [paginatedData] hooks, the page
    count and the event handlers of the [Index] component.

    Conventions of the embedding.
    - A JavaScript number is modelled by the real value it denotes
      ([number]: a rational, one of the two infinities, or NaN).  The
      component only compares numbers and takes the sign of a difference;
      both are exact on IEEE doubles.  The rounding of a parsed decimal to
      a double is not modelled.
    - A JavaScript string is the sequence of its code units.  The model
      has the text whose code units are below 256 (a [string], one byte
      per code unit); [trim], [toLowerCase] and [includes] are the
      ECMAScript functions on such text, which they map to such text.
      Text with higher code units is outside the model, and so are the
      case mappings of Unicode that depend on it: a theorem whose truth
      depends on the letters of a text says for which text it holds.
    - An array is an object in a store ([Heap]); [Array.prototype.sort]
      writes to the store in place, the other array operations allocate.
    - A dataset row follows [interface CutoffData]: a field holds a value
      of the type the interface gives it, or is missing ([None], the value
      [undefined]), which is the malformation the component itself guards
      against.  Rows with [null] or a value of another type in a field are
      outside the model. *)

From Stdlib Require Import ZArith QArith Qround String Ascii List Bool Lia.
From Stdlib Require Import Sorting.Sorted.
From stdpp Require Import base option list gmap pretty sorting.

Local Open Scope string_scope.
Local Open Scope Z_scope.

(** ** Numbers *)

Module Num.

Inductive number : Type :=
  | NaN
  | NegInf
  | Fin (q : Q)
  | PosInf.

Definition ofZ (z : Z) : number := Fin (inject_Z z).

(** [a <= b] (false as soon as one side is NaN). *)
Definition le (a b : number) : bool :=
  match a, b with
  | NaN, _ | _, NaN => false
  | NegInf, _ => true
  | _, PosInf => true
  | Fin x, Fin y => Qle_bool x y
  | _, _ => false
  end.

(** [a >= b]. *)
Definition ge (a b : number) : bool := le b a.

(** [a - b]; opposite infinities subtract to an infinity, equal ones to NaN. *)
Definition sub (a b : number) : number :=
  match a, b with
  | NaN, _ | _, NaN => NaN
  | Fin x, Fin y => Fin (x - y)
  | PosInf, PosInf | NegInf, NegInf => NaN
  | PosInf, _ | _, NegInf => PosInf
  | NegInf, _ | _, PosInf => NegInf
  end.

(** Sign of a number: [Lt] below zero, [Gt] above zero, [Eq] for zero.
    NaN has no sign. *)
Definition sign (a : number) : option comparison :=
  match a with
  | NaN => None
  | NegInf => Some Lt
  | Fin q => Some (Qcompare q 0)
  | PosInf => Some Gt
  end.

(** The numeric order as a proposition, for specifications. *)
Definition Le (a b : number) : Prop :=
  match a, b with
  | NaN, _ | _, NaN => False
  | NegInf, _ => True
  | _, PosInf => True
  | Fin x, Fin y => (x <= y)%Q
  | _, _ => False
  end.

(** Numeric equality ([===] on numbers). *)
Definition Eq (a b : number) : Prop :=
  match a, b with
  | Fin x, Fin y => (x == y)%Q
  | PosInf, PosInf | NegInf, NegInf => True
  | _, _ => False
  end.

Definition isNaN (a : number) : bool :=
  match a with NaN => true | _ => false end.

End Num.

Abbreviation number := Num.number.

(** ** Strings *)

Module Str.

Definition truthy (s : string) : bool :=
  match s with EmptyString => false | _ => true end.

(** The members of WhiteSpace and LineTerminator below 256: TAB, LF, VT,
    FF, CR, SP and the no-break space U+00A0. *)
Definition isWhiteSpace (c : ascii) : bool :=
  let n := nat_of_ascii c in
  ((9 <=? n)%nat && (n <=? 13)%nat) || (n =? 32)%nat || (n =? 160)%nat.

Fixpoint trimStart (s : string) : string :=
  match s with
  | EmptyString => EmptyString
  | String c s' => if isWhiteSpace c then trimStart s' else s
  end.

Fixpoint trimEnd (s : string) : string :=
  match s with
  | EmptyString => EmptyString
  | String c s' =>
      match trimEnd s' with
      | EmptyString => if isWhiteSpace c then EmptyString else String c EmptyString
      | t => String c t
      end
  end.

(** [String.prototype.trim] *)
Definition trim (s : string) : string := trimEnd (trimStart s).

(** The lower-case mapping of Unicode below 256: the letters A to Z and
    the letters from U+00C0 to U+00DE (U+00D7, the multiplication sign, is
    not one) map 32 code units up; every other code unit maps to itself. *)
Definition lowerChar (c : ascii) : ascii :=
  let n := nat_of_ascii c in
  if ((65 <=? n)%nat && (n <=? 90)%nat)
     || ((192 <=? n)%nat && (n <=? 222)%nat && negb (n =? 215)%nat)
  then ascii_of_nat (n + 32) else c.

(** [String.prototype.toLowerCase]: below 256 no code unit has a
    context-dependent or multi-character lower case, so the text is mapped
    code unit by code unit. *)
Fixpoint toLowerCase (s : string) : string :=
  match s with
  | EmptyString => EmptyString
  | String c s' => String (lowerChar c) (toLowerCase s')
  end.

Fixpoint startsWith (s needle : string) : bool :=
  match needle, s with
  | EmptyString, _ => true
  | String _ _, EmptyString => false
  | String a needle', String b s' => Ascii.eqb a b && startsWith s' needle'
  end.

(** [String.prototype.includes] *)
Fixpoint includes (s needle : string) : bool :=
  startsWith s needle ||
  match s with
  | EmptyString => false
  | String _ s' => includes s' needle
  end.

End Str.

(** ** The global functions [parseInt] and [parseFloat] *)

Module Parse.

Import Num.

Definition digitValue (radix : Z) (c : ascii) : option Z :=
  let n := Z.of_nat (nat_of_ascii c) in
  let v :=
    if (48 <=? n) && (n <=? 57) then Some (n - 48)
    else if (97 <=? n) && (n <=? 122) then Some (n - 87)
    else if (65 <=? n) && (n <=? 90) then Some (n - 55)
    else None in
  match v with
  | Some d => if d <? radix then Some d else None
  | None => None
  end.

(** Reads the longest run of digits in [radix] at the start of [s]: the
    number of digits read, their value continuing from [acc], and the
    rest of the string. *)
Fixpoint readDigits (radix : Z) (s : string) (acc : Z) : nat * Z * string :=
  match s with
  | EmptyString => (O, acc, s)
  | String c s' =>
      match digitValue radix c with
      | Some d =>
          let '(n, v, rest) := readDigits radix s' (acc * radix + d) in
          (S n, v, rest)
      | None => (O, acc, s)
      end
  end.

(** Strips one leading sign; [true] when it was a minus. *)
Definition readSign (s : string) : bool * string :=
  match s with
  | String "-" s' => (true, s')
  | String "+" s' => (false, s')
  | _ => (false, s)
  end.

Definition signed (neg : bool) (q : Q) : Q := if neg then (- q)%Q else q.

(** [parseInt(string)] with no radix argument: leading white space, a sign,
    an optional [0x] / [0X] prefix that selects radix 16, then the longest
    run of digits; NaN when that run is empty. *)
Definition parseInt (input : string) : number :=
  let s := Str.trimStart input in
  let '(neg, s) := readSign s in
  let '(radix, s) :=
    match s with
    | String "0" (String "x" s') | String "0" (String "X" s') => (16, s')
    | _ => (10, s)
    end in
  let '(n, v, _) := readDigits radix s 0 in
  match n with
  | O => NaN
  | S _ => Fin (signed neg (inject_Z v))
  end.

(** Ten to the power [e], for either sign of [e]. *)
Definition pow10 (e : Z) : Q :=
  if 0 <=? e then inject_Z (10 ^ e) else (/ inject_Z (10 ^ (- e)))%Q.

(** The ExponentPart of a StrDecimalLiteral at the start of [s], when there
    is a complete one: [e] or [E], an optional sign, at least one digit. *)
Definition readExponent (s : string) : Z :=
  match s with
  | String "e" s' | String "E" s' =>
      let '(neg, s'') := readSign s' in
      let '(n, v, _) := readDigits 10 s'' 0 in
      match n with
      | O => 0
      | S _ => if neg then - v else v
      end
  | _ => 0
  end.

(** [parseFloat(string)]: leading white space, then the longest prefix that
    is a StrDecimalLiteral; NaN when there is none.  The result is the
    decimal the text denotes; JavaScript rounds it to the nearest double,
    which keeps the order of two values but can make close ones equal. *)
Definition parseFloat (input : string) : number :=
  let s := Str.trimStart input in
  let '(neg, s) := readSign s in
  if Str.startsWith s "Infinity" then (if neg then NegInf else PosInf)
  else
    let '(ni, vi, s) := readDigits 10 s 0 in
    let '(nf, vf, s) :=
      match s with
      | String "." s' => readDigits 10 s' vi
      | _ => (O, vi, s)
      end in
    match (ni + nf)%nat with
    | O => NaN
    | S _ =>
        let e := readExponent s in
        Fin (signed neg (inject_Z vf * pow10 (e - Z.of_nat nf))%Q)
    end.

End Parse.

(** ** The dataset *)

(** [interface CutoffData].  A field that the row lacks reads as
    [undefined], here [None]. *)
Record CutoffData : Type := {
  Rank : option number;
  Percentile : option number;
  Choice_Code : option string;
  Institute_Name : option string;
  Course_Name : option string;
  Type_ : option string
}.

Inductive SortField : Type := FRank | FPercentile.
Inductive SortOrder : Type := asc | desc.

(** [item[sortField]] *)
Definition getField (f : SortField) (item : CutoffData) : option number :=
  match f with
  | FRank => Rank item
  | FPercentile => Percentile item
  end.

(** ToNumber on a numeric field: [undefined] converts to NaN. *)
Definition ToNumber (v : option number) : number :=
  match v with
  | Some n => n
  | None => Num.NaN
  end.

(** [v || ""] on a string field: [undefined] and the empty string are falsy. *)
Definition orEmpty (v : option string) : string :=
  match v with
  | Some s => if Str.truthy s then s else ""
  | None => ""
  end.

Definition itemsPerPage : Z := 20.

(** ** The callbacks of [filteredAndSortedData] *)

(** The arrow function given to [data.filter] (threshold filter). *)
Definition thresholdCallback (rankFilter percentileFilter : string)
    (item : CutoffData) : bool :=
  let userRank :=
    if Str.truthy rankFilter then Some (Parse.parseInt rankFilter) else None in
  let userPercentile :=
    if Str.truthy percentileFilter
    then Some (Parse.parseFloat percentileFilter) else None in
  let matches := false in
  let matches :=
    match userPercentile with
    | Some p => matches || Num.le (ToNumber (Percentile item)) p
    | None => matches
    end in
  let matches :=
    match userRank with
    | Some r => matches || Num.ge (ToNumber (Rank item)) r
    | None => matches
    end in
  matches.

(** The arrow function given to [filtered.filter] (search filter). *)
Definition searchCallback (searchLower : string) (item : CutoffData) : bool :=
  let instituteName := orEmpty (Institute_Name item) in
  let courseName := orEmpty (Course_Name item) in
  Str.includes (Str.toLowerCase instituteName) searchLower
  || Str.includes (Str.toLowerCase courseName) searchLower.

(** The comparator given to [filtered.sort]. *)
Definition compareFn (sortField : SortField) (sortOrder : SortOrder)
    (a b : CutoffData) : number :=
  let aValue := getField sortField a in
  let bValue := getField sortField b in
  match aValue, bValue with
  | Some x, Some y =>
      match sortOrder with
      | asc => Num.sub x y
      | desc => Num.sub y x
      end
  | _, _ => Num.ofZ 0
  end.

(** ** Array operations on values *)

Module Arr.

Section Sort.
Context {A : Type} (comparefn : A -> A -> number).

(** SortCompare: a comparator result of NaN counts as [+0]. *)
Definition SortCompare (x y : A) : comparison :=
  match Num.sign (comparefn x y) with
  | Some c => c
  | None => Eq
  end.

(** [x] moves right past the elements it is strictly greater than. *)
Fixpoint insert (x : A) (l : list A) : list A :=
  match l with
  | [] => [x]
  | y :: l' =>
      match SortCompare x y with
      | Gt => y :: insert x l'
      | _ => x :: l
      end
  end.

(** [Array.prototype.sort]: ECMAScript requires a stable sort and leaves
    the algorithm open; this is the stable insertion sort.  For a
    comparator that orders the elements consistently every stable sort
    gives the same list ([sort_unique] below); for any other comparator the
    order is the implementation's, here the one of insertion.  What is
    stated below about the order of a sorted array is stated for elements
    that the comparator orders consistently. *)
Fixpoint sort (l : list A) : list A :=
  match l with
  | [] => []
  | x :: l' => insert x (sort l')
  end.
End Sort.

(** [Array.prototype.slice(start, end)] for integer arguments: a negative
    index counts from the end, and both are clamped to the array. *)
Definition slice {A : Type} (l : list A) (start end_ : Z) : list A :=
  let len := Z.of_nat (length l) in
  let k := if start <? 0 then Z.max (len + start) 0 else Z.min start len in
  let final := if end_ <? 0 then Z.max (len + end_) 0 else Z.min end_ len in
  let count := Z.max (final - k) 0 in
  take (Z.to_nat count) (drop (Z.to_nat k) l).

End Arr.

(** [Math.ceil(a / b)] for integers [a] and [b]. *)
Definition Math_ceil_div (a b : Z) : Z :=
  Qceiling (inject_Z a / inject_Z b).

(** ** The store of arrays *)

Abbreviation loc := positive.

Abbreviation Heap := (gmap positive (list CutoffData)).

(** Computations that read and write the store. *)
Definition M (A : Type) : Type := Heap -> A * Heap.

Definition ret {A : Type} (x : A) : M A := fun h => (x, h).

Definition bind {A B : Type} (m : M A) (k : A -> M B) : M B :=
  fun h => let '(x, h') := m h in k x h'.

Notation "'let!' x ':=' m 'in' k" := (bind m (fun x => k))
  (at level 10, x pattern, m at level 100, k at level 200).

(** The elements of the array at [a] (none for a reference that is not in
    the store). *)
Definition contents (h : Heap) (a : loc) : list CutoffData :=
  default [] (h !! a).

Definition alloc (l : list CutoffData) : M loc :=
  fun h => let a := fresh (dom h) in (a, <[a := l]> h).

Definition read (a : loc) : M (list CutoffData) :=
  fun h => (contents h a, h).

Definition write (a : loc) (l : list CutoffData) : M unit :=
  fun h => (tt, <[a := l]> h).

(** [[...a]]: a new array with the elements of [a]. *)
Definition Array_spread (a : loc) : M loc :=
  let! l := read a in alloc l.

(** [a.filter(f)]: a new array. *)
Definition Array_filter (a : loc) (f : CutoffData -> bool) : M loc :=
  let! l := read a in alloc (List.filter f l).

(** [a.sort(f)]: sorts the array at [a] in place and returns [a]. *)
Definition Array_sort (a : loc) (f : CutoffData -> CutoffData -> number) : M loc :=
  let! l := read a in let! _ := write a (Arr.sort f l) in ret a.

(** [a.slice(start, end)]: a new array. *)
Definition Array_slice (a : loc) (start end_ : Z) : M loc :=
  let! l := read a in alloc (Arr.slice l start end_).

(** [a.length] *)
Definition Array_length (a : loc) : M Z :=
  let! l := read a in ret (Z.of_nat (length l)).

(** ** The component [Index] *)

(** The [useState] cells of the component. *)
Record State : Type := {
  data : loc;
  rankFilter : string;
  percentileFilter : string;
  searchFilter : string;
  sortField : SortField;
  sortOrder : SortOrder;
  currentPage : Z
}.

(** The body of the [useMemo] that computes [filteredAndSortedData]. *)
Definition filteredAndSortedData (st : State) : M loc :=
  let! filtered := Array_spread (data st) in
  let! filtered :=
    if Str.truthy (rankFilter st) || Str.truthy (percentileFilter st)
    then Array_filter (data st)
           (thresholdCallback (rankFilter st) (percentileFilter st))
    else ret filtered in
  let! filtered :=
    if Str.truthy (Str.trim (searchFilter st))
    then
      let searchLower := Str.trim (Str.toLowerCase (searchFilter st)) in
      Array_filter filtered (searchCallback searchLower)
    else ret filtered in
  let! _ := Array_sort filtered (compareFn (sortField st) (sortOrder st)) in
  ret filtered.

(** The body of the [useMemo] that computes [paginatedData]. *)
Definition paginatedData (st : State) (filteredAndSorted : loc) : M loc :=
  let startIndex := (currentPage st - 1) * itemsPerPage in
  Array_slice filteredAndSorted startIndex (startIndex + itemsPerPage).

(** [totalPages] *)
Definition totalPages (filteredAndSorted : loc) : M Z :=
  let! len := Array_length filteredAndSorted in
  ret (Math_ceil_div len itemsPerPage).

(** What one render hands to the table: the rows of the page, the number
    of matches shown in the summary line, and the number of pages. *)
Record View : Type := {
  visible : list CutoffData;
  totalMatches : Z;
  viewPages : Z
}.

(** One render of the component in the loaded state. *)
Definition render (st : State) : M View :=
  let! fs := filteredAndSortedData st in
  let! pd := paginatedData st fs in
  let! tp := totalPages fs in
  let! rows := read pd in
  let! n := Array_length fs in
  ret {| visible := rows; totalMatches := n; viewPages := tp |}.

(** *** Event handlers *)

Definition setRankFilter (v : string) (st : State) : State :=
  {| data := data st; rankFilter := v;
     percentileFilter := percentileFilter st; searchFilter := searchFilter st;
     sortField := sortField st; sortOrder := sortOrder st;
     currentPage := currentPage st |}.

Definition setPercentileFilter (v : string) (st : State) : State :=
  {| data := data st; rankFilter := rankFilter st;
     percentileFilter := v; searchFilter := searchFilter st;
     sortField := sortField st; sortOrder := sortOrder st;
     currentPage := currentPage st |}.

Definition setSearchFilter (v : string) (st : State) : State :=
  {| data := data st; rankFilter := rankFilter st;
     percentileFilter := percentileFilter st; searchFilter := v;
     sortField := sortField st; sortOrder := sortOrder st;
     currentPage := currentPage st |}.

Definition setSortField (v : SortField) (st : State) : State :=
  {| data := data st; rankFilter := rankFilter st;
     percentileFilter := percentileFilter st; searchFilter := searchFilter st;
     sortField := v; sortOrder := sortOrder st;
     currentPage := currentPage st |}.

Definition setSortOrder (v : SortOrder) (st : State) : State :=
  {| data := data st; rankFilter := rankFilter st;
     percentileFilter := percentileFilter st; searchFilter := searchFilter st;
     sortField := sortField st; sortOrder := v;
     currentPage := currentPage st |}.

Definition setCurrentPage (f : Z -> Z) (st : State) : State :=
  {| data := data st; rankFilter := rankFilter st;
     percentileFilter := percentileFilter st; searchFilter := searchFilter st;
     sortField := sortField st; sortOrder := sortOrder st;
     currentPage := f (currentPage st) |}.

Definition SortField_eqb (a b : SortField) : bool :=
  match a, b with
  | FRank, FRank | FPercentile, FPercentile => true
  | _, _ => false
  end.

(** The setters of one handler are batched: every right-hand side reads the
    state of the render that created the handler ([st]). *)
Definition handleSort (field : SortField) (st : State) : State :=
  let st' :=
    if SortField_eqb field (sortField st)
    then setSortOrder (match sortOrder st with asc => desc | desc => asc end) st
    else setSortOrder asc (setSortField field st) in
  setCurrentPage (fun _ => 1) st'.

Definition clearFilters (st : State) : State :=
  setCurrentPage (fun _ => 1)
    (setSearchFilter "" (setPercentileFilter "" (setRankFilter "" st))).

Definition hasActiveFilters (st : State) : bool :=
  Str.truthy (rankFilter st) || Str.truthy (percentileFilter st)
  || Str.truthy (searchFilter st).

(** The user's actions on the loaded page. *)
Inductive Action : Type :=
  | EditRank (v : string)
  | EditPercentile (v : string)
  | EditSearch (v : string)
  | ClickSort (field : SortField)
  | ClickClearAll
  | ClickPrevious
  | ClickNext.

(** Whether the control of an action is on the page and enabled, given the
    page count of the current render. *)
Definition enabled (pages : Z) (st : State) (a : Action) : bool :=
  match a with
  | EditRank _ | EditPercentile _ | EditSearch _ | ClickSort _ => true
  | ClickClearAll => hasActiveFilters st
  | ClickPrevious => (1 <? pages) && negb (currentPage st =? 1)
  | ClickNext => (1 <? pages) && negb (currentPage st =? pages)
  end.

(** The handler of each action; [pages] is [totalPages] of the render that
    created the handler. *)
Definition handle (pages : Z) (a : Action) (st : State) : State :=
  match a with
  | EditRank v => setRankFilter v st
  | EditPercentile v => setPercentileFilter v st
  | EditSearch v => setSearchFilter v st
  | ClickSort field => handleSort field st
  | ClickClearAll => clearFilters st
  | ClickPrevious => setCurrentPage (fun prev => Z.max (prev - 1) 1) st
  | ClickNext => setCurrentPage (fun prev => Z.min (prev + 1) pages) st
  end.

(** A session: before each action the page is rendered, the action must be
    one its controls allow, and its handler gives the next state. *)
Fixpoint play (actions : list Action) (st : State) (h : Heap)
    : option (State * Heap) :=
  match actions with
  | [] => Some (st, h)
  | a :: rest =>
      let '(v, h') := render st h in
      if enabled (viewPages v) st a
      then play rest (handle (viewPages v) a st) h'
      else None
  end.

(** The initial values of the [useState] cells, for a loaded dataset. *)
Definition initialState (d : loc) : State :=
  {| data := d; rankFilter := ""; percentileFilter := ""; searchFilter := "";
     sortField := FRank; sortOrder := asc; currentPage := 1 |}.

(** ** The data source adapter: [fetchData] *)

Module Adapter.

(** A parsed JSON value.  The members of an object are listed with unique
    keys, as [JSON.parse] leaves them. *)
#[local] Unset Elimination Schemes.
Inductive JSON : Type :=
  | JNull
  | JBool (b : bool)
  | JNumber (n : number)
  | JString (s : string)
  | JArray (elements : list JSON)
  | JObject (members : list (string * JSON)).
#[local] Set Elimination Schemes.

(** A settled [fetch]: the [ok] flag of the response and what
    [response.json()] resolves to, [None] when it rejects. *)
Record Response : Type := {
  ok : bool;
  json : option JSON
}.

(** [Array.isArray] *)
Definition Array_isArray (v : JSON) : bool :=
  match v with
  | JArray _ => true
  | _ => false
  end.

Fixpoint member (key : string) (ms : list (string * JSON)) : option JSON :=
  match ms with
  | [] => None
  | (k, v) :: ms' => if String.eqb k key then Some v else member key ms'
  end.

(** [v.contents]: [None] is a TypeError (property access on [null]); a
    value without that property gives [undefined], here [Some None]. *)
Definition get_contents (v : JSON) : option (option JSON) :=
  match v with
  | JNull => None
  | JObject ms => Some (member "contents" ms)
  | _ => Some None
  end.

Definition hexDigit (n : nat) : ascii :=
  ascii_of_nat (if (n <? 10)%nat then 48 + n else 55 + n).

(** The characters [encodeURIComponent] leaves as they are. *)
Definition unreserved (c : ascii) : bool :=
  let n := nat_of_ascii c in
  ((48 <=? n)%nat && (n <=? 57)%nat) || ((65 <=? n)%nat && (n <=? 90)%nat)
  || ((97 <=? n)%nat && (n <=? 122)%nat)
  || Str.includes "-_.!~*'()" (String c EmptyString).

(** The percent escape of one byte. *)
Definition escape (n : nat) (rest : string) : string :=
  String "%" (String (hexDigit (n / 16)) (String (hexDigit (n mod 16)) rest)).

(** [encodeURIComponent]: every other code unit becomes the percent
    escapes of its UTF-8 bytes, one byte below 128 and two from 128 on. *)
Fixpoint encodeURIComponent (s : string) : string :=
  match s with
  | EmptyString => EmptyString
  | String c s' =>
      if unreserved c then String c (encodeURIComponent s')
      else
        let n := nat_of_ascii c in
        if (n <? 128)%nat then escape n (encodeURIComponent s')
        else escape (192 + n / 64) (escape (128 + n mod 64) (encodeURIComponent s'))
  end.

Definition corsProxies : list string :=
  [ "https://api.allorigins.win/get?url=";
    "https://corsproxy.io/?";
    "https://api.codetabs.com/v1/proxy?quest=" ].

Definition dataUrl : string :=
  "https://drive.google.com/uc?export=download&id=1j2VzL9OBR8rVb5DD_4wgvIlE7bCzVI-n".

(** The [useState] cells the loader writes. *)
Record LoadState : Type := {
  data : JSON;
  loading : bool;
  error : option string
}.

Definition setData (v : JSON) (s : LoadState) : LoadState :=
  {| data := v; loading := loading s; error := error s |}.

Definition setLoading (b : bool) (s : LoadState) : LoadState :=
  {| data := data s; loading := b; error := error s |}.

Definition setError (e : string) (s : LoadState) : LoadState :=
  {| data := data s; loading := loading s; error := Some e |}.

Definition initialLoadState : LoadState :=
  {| data := JArray []; loading := true; error := None |}.

Section Fetch.

(** The network: what [fetch(url)] settles to, [None] when it rejects. *)
Variable fetch : string -> option Response.

(** [JSON.parse] of a value that may be [undefined]; [None] when it
    throws. *)
Variable JSON_parse : option JSON -> option JSON.

(** The first [try] block: [Some v] when it reaches [setData(v); return]. *)
Definition tryServer : option JSON :=
  match fetch "/api/cutoffs" with
  | Some response =>
      if ok response
      then match json response with
           | Some jsonData => Some jsonData
           | None => None
           end
      else None
  | None => None
  end.

(** The body of the proxy loop for one proxy: [Some v] when it reaches
    [setData(v); return], [None] when the loop goes on. *)
Definition tryProxy (proxy : string) : option JSON :=
  match fetch (proxy ++ encodeURIComponent dataUrl) with
  | None => None
  | Some response =>
      (* [None]: an exception inside the [try]; otherwise [jsonData],
         which stays [undefined] ([Some None]) when the response is not ok *)
      let result : option (option JSON) :=
        if Str.includes proxy "allorigins"
        then
          if ok response
          then match json response with
               | Some proxyData =>
                   match get_contents proxyData with
                   | Some contents =>
                       match JSON_parse contents with
                       | Some v => Some (Some v)
                       | None => None
                       end
                   | None => None
                   end
               | None => None
               end
          else Some None
        else
          if ok response
          then match json response with
               | Some v => Some (Some v)
               | None => None
               end
          else Some None in
      match result with
      | Some (Some jsonData) =>
          if Array_isArray jsonData then Some jsonData else None
      | _ => None
      end
  end.

(** [for (const proxy of corsProxies)] *)
Fixpoint tryProxies (proxies : list string) : option JSON :=
  match proxies with
  | [] => None
  | proxy :: rest =>
      match tryProxy proxy with
      | Some v => Some v
      | None => tryProxies rest
      end
  end.

(** The last [try] block, the direct fetch. *)
Definition tryDirect : option JSON :=
  match fetch dataUrl with
  | Some response =>
      if ok response
      then match json response with
           | Some jsonData => Some jsonData
           | None => None
           end
      else None
  | None => None
  end.

(** [fetchData] *)
Definition fetchData (s : LoadState) : LoadState :=
  let s := setLoading true s in
  let s :=
    match tryServer with
    | Some v => setData v s
    | None =>
        match tryProxies corsProxies with
        | Some v => setData v s
        | None =>
            match tryDirect with
            | Some v => setData v s
            | None => setError "All data sources failed. Please try again later." s
            end
        end
    end in
  setLoading false s.

End Fetch.

End Adapter.

(** * Specifications *)

(** ** The stages of the pipeline on the elements of the array *)

(** Threshold filter (the first [if] of [filteredAndSortedData]). *)
Definition thresholdStage (rankFilter percentileFilter : string)
    (l : list CutoffData) : list CutoffData :=
  if Str.truthy rankFilter || Str.truthy percentileFilter
  then List.filter (thresholdCallback rankFilter percentileFilter) l
  else l.

(** Search filter (the second [if]). *)
Definition searchStage (searchFilter : string)
    (l : list CutoffData) : list CutoffData :=
  if Str.truthy (Str.trim searchFilter)
  then List.filter (searchCallback (Str.trim (Str.toLowerCase searchFilter))) l
  else l.

(** Sort. *)
Definition sortStage (sortField : SortField) (sortOrder : SortOrder)
    (l : list CutoffData) : list CutoffData :=
  Arr.sort (compareFn sortField sortOrder) l.

(** The elements of the array [filteredAndSortedData] returns, from the
    elements of [data]. *)
Definition pipeline (st : State) (l : list CutoffData) : list CutoffData :=
  sortStage (sortField st) (sortOrder st)
    (searchStage (searchFilter st)
       (thresholdStage (rankFilter st) (percentileFilter st) l)).

(** What one render shows, from the elements of [data]. *)
Definition view (st : State) (l : list CutoffData) : View :=
  let filtered := pipeline st l in
  let startIndex := (currentPage st - 1) * itemsPerPage in
  {| visible := Arr.slice filtered startIndex (startIndex + itemsPerPage);
     totalMatches := Z.of_nat (length filtered);
     viewPages := Math_ceil_div (Z.of_nat (length filtered)) itemsPerPage |}.

(** [r] is a new array, with elements [l], in a store that extends [h0]. *)
Definition allocated (h0 : Heap) (l : list CutoffData) (r : loc * Heap) : Prop :=
  h0 ⊆ r.2 /\ h0 !! r.1 = None /\ r.2 !! r.1 = Some l.

(** Two states with the same filter, sort and page inputs. *)
Definition sameCriteria (s1 s2 : State) : Prop :=
  rankFilter s1 = rankFilter s2 /\ percentileFilter s1 = percentileFilter s2
  /\ searchFilter s1 = searchFilter s2 /\ sortField s1 = sortField s2
  /\ sortOrder s1 = sortOrder s2 /\ currentPage s1 = currentPage s2.

(** ** The filter criteria in the words of the specification *)

(** A threshold is set when its input field is not empty; its value is
    what the field parses to. *)
Definition rankThreshold (rankFilter : string) : option number :=
  if decide (rankFilter = "") then None else Some (Parse.parseInt rankFilter).

Definition percentileThreshold (percentileFilter : string) : option number :=
  if decide (percentileFilter = "") then None
  else Some (Parse.parseFloat percentileFilter).

(** The record's percentile is at most the percentile threshold. *)
Definition meetsPercentile (pT : option number) (r : CutoffData) : Prop :=
  match pT with
  | Some p => Num.Le (ToNumber (Percentile r)) p
  | None => False
  end.

(** The record's rank is at least the rank threshold. *)
Definition meetsRank (rT : option number) (r : CutoffData) : Prop :=
  match rT with
  | Some k => Num.Le k (ToNumber (Rank r))
  | None => False
  end.

(** Stage 1: no threshold is set, or the record satisfies at least one of
    the thresholds that are set. *)
Definition passesThreshold (rT pT : option number) (r : CutoffData) : Prop :=
  (rT = None /\ pT = None) \/ meetsPercentile pT r \/ meetsRank rT r.

(** Two strings that differ only in the case of their letters. *)
Definition sameIgnoringCase (a b : string) : Prop :=
  Str.toLowerCase a = Str.toLowerCase b.

(** [needle] occurs in [s] up to the case of letters. *)
Definition ciSubstring (needle s : string) : Prop :=
  exists pre mid post : string,
    s = pre ++ mid ++ post /\ sameIgnoringCase mid needle.

(** A name field as text: a missing field is the empty string. *)
Definition nameText (v : option string) : string := default "" v.

(** Stage 2: the trimmed search text is empty, or it occurs in one of the
    two names. *)
Definition passesSearch (searchText : string) (r : CutoffData) : Prop :=
  Str.trim searchText = "" \/
  ciSubstring (Str.trim searchText) (nameText (Institute_Name r)) \/
  ciSubstring (Str.trim searchText) (nameText (Course_Name r)).

(** ** The search criterion, character by character *)

(** The code units of a text. *)
Definition chars (s : string) : list ascii := list_ascii_of_string s.

(** Text in ASCII: every code unit is below 128. *)
Definition asciiText (s : string) : Prop :=
  Forall (fun c => (nat_of_ascii c < 128)%nat) (chars s).

(** The white space of ASCII: TAB, LF, VT, FF, CR and SP. *)
Definition whiteSpaceCodes : list nat := [9; 10; 11; 12; 13; 32]%nat.

Definition blankChar (c : ascii) : Prop := nat_of_ascii c ∈ whiteSpaceCodes.

(** [t] is the text [s] without the white space at its two ends. *)
Definition trimmedText (s : string) (t : list ascii) : Prop :=
  exists l r : list ascii,
    chars s = (l ++ t ++ r)%list /\ Forall blankChar l /\ Forall blankChar r
    /\ (forall c, head t = Some c -> ~ blankChar c)
    /\ (forall c, last t = Some c -> ~ blankChar c).

(** The capital and the small letters of ASCII, pair by pair. *)
Definition letterPairs : list (ascii * ascii) :=
  zip (chars "ABCDEFGHIJKLMNOPQRSTUVWXYZ") (chars "abcdefghijklmnopqrstuvwxyz").

(** The same character, or the capital and the small form of one letter. *)
Definition sameLetter (c d : ascii) : Prop :=
  c = d \/ (c, d) ∈ letterPairs \/ (d, c) ∈ letterPairs.

(** [needle] occurs in [s] when the case of letters is ignored: some run
    of consecutive characters of [s] is [needle], letter by letter. *)
Definition occursIgnoringCase (needle : list ascii) (s : string) : Prop :=
  exists pre mid post : list ascii,
    chars s = (pre ++ mid ++ post)%list /\ Forall2 sameLetter mid needle.

(** How [occursIgnoringCase] is decided: [needle] starts [cs], or occurs
    further on in it. *)
Fixpoint startsLike (cs needle : list ascii) : Prop :=
  match needle, cs with
  | [], _ => True
  | _ :: _, [] => False
  | d :: needle', c :: cs' => sameLetter c d /\ startsLike cs' needle'
  end.

Fixpoint occursIn (cs needle : list ascii) : Prop :=
  startsLike cs needle
  \/ match cs with
     | [] => False
     | _ :: cs' => occursIn cs' needle
     end.


(** ** The sort order in the words of the specification *)

(** The sort key is a number that can be ordered. *)
Definition numericKey (f : SortField) (r : CutoffData) : Prop :=
  match getField f r with
  | Some n => Num.isNaN n = false
  | None => False
  end.

(** [a] may come before [b]: smaller first when ascending, larger first
    when descending. *)
Definition inOrder (f : SortField) (o : SortOrder) (a b : CutoffData) : Prop :=
  match o with
  | asc => Num.Le (ToNumber (getField f a)) (ToNumber (getField f b))
  | desc => Num.Le (ToNumber (getField f b)) (ToNumber (getField f a))
  end.

(** The sort key of [r] is the number [k]. *)
Definition hasKey (f : SortField) (k : number) (r : CutoffData) : Prop :=
  match getField f r with
  | Some n => Num.Eq n k
  | None => False
  end.

(** ** The sort order on one field of the record *)

(** A field holds a number that can be ordered. *)
Definition isNumber (v : option number) : Prop :=
  match v with
  | Some n => Num.isNaN n = false
  | None => False
  end.

(** [a] may come before [b] in the order [o] of the numbers that [key]
    reads: smaller first when ascending, larger first when descending. *)
Definition ordered (key : CutoffData -> option number) (o : SortOrder)
    (a b : CutoffData) : Prop :=
  match key a, key b with
  | Some x, Some y =>
      match o with
      | asc => Num.Le x y
      | desc => Num.Le y x
      end
  | _, _ => False
  end.

(** The number that [key] reads in [r] is [k]. *)
Definition keyed (key : CutoffData -> option number) (k : number)
    (r : CutoffData) : Prop :=
  match key r with
  | Some n => Num.Eq n k
  | None => False
  end.

(** ** Sample rows *)

Definition row (rank : Z) (percentile : Q) (institute course : string)
    : CutoffData :=
  {| Rank := Some (Num.ofZ rank); Percentile := Some (Num.Fin percentile);
     Choice_Code := None; Institute_Name := Some institute;
     Course_Name := Some course; Type_ := None |}.

(** [n] rows of ranks [n], ..., [1]. *)
Fixpoint rows (n : nat) : list CutoffData :=
  match n with
  | O => []
  | S n' => row (Z.of_nat n) 50 "Institute" "Course" :: rows n'
  end.

(** A network on which the local endpoint answers 200 with a JSON object
    and every other source delivers the dataset, the first proxy wrapped in
    its [contents] envelope. *)
Definition sampleDataset : Adapter.JSON :=
  Adapter.JArray [Adapter.JObject []].

Definition objectFromServer (url : string) : option Adapter.Response :=
  if String.eqb url "/api/cutoffs"
  then Some {| Adapter.ok := true;
               Adapter.json :=
                 Some (Adapter.JObject [("error", Adapter.JString "upstream")]) |}
  else if Str.includes url "allorigins"
  then Some {| Adapter.ok := true;
               Adapter.json :=
                 Some (Adapter.JObject [("contents", Adapter.JString "[{}]")]) |}
  else Some {| Adapter.ok := true; Adapter.json := Some sampleDataset |}.

(** [JSON.parse] on the texts of that network. *)
Definition sampleParse (v : option Adapter.JSON) : option Adapter.JSON :=
  match v with
  | Some (Adapter.JString text) =>
      if String.eqb text "[{}]" then Some sampleDataset else None
  | _ => None
  end.

(** ** The screens of the component *)





(** ** The endpoint behind [/api/cutoffs] *)

Module Server.

(** What a rejected promise or a [throw] carries: an [Error] with its
    message, or some other value. *)
Inductive Thrown : Type :=
  | ErrorObject (message : string)
  | OtherValue.

(** A response of the upstream: its status and what [response.json()]
    settles to. *)
Record Upstream : Type := {
  status : Z;
  body : Thrown + Adapter.JSON
}.

(** [response.ok]: a status from 200 to 299. *)
Definition ok (r : Upstream) : bool :=
  (200 <=? status r) && (status r <=? 299).





Section Handlers.

(** The upstream: what [fetch(url)] settles to. *)
Variable fetch : string -> Thrown + Upstream.



End Handlers.


End Server.



(** ** The threshold callback of the earlier page *)

(** Truthiness of a number: NaN and zero are falsy. *)
Definition numberTruthy (n : number) : bool :=
  match n with
  | Num.NaN => false
  | Num.Fin q => negb (Qeq_bool q 0)
  | _ => true
  end.

(** The arrow function given to [data.filter] before the fix: a threshold
    that is missing, zero or NaN counts as matched. *)
Definition thresholdCallback_earlier (rankFilter percentileFilter : string)
    (item : CutoffData) : bool :=
  let userRank :=
    if Str.truthy rankFilter then Some (Parse.parseInt rankFilter) else None in
  let userPercentile :=
    if Str.truthy percentileFilter
    then Some (Parse.parseFloat percentileFilter) else None in
  let percentileMatch :=
    match userPercentile with
    | Some p =>
        if numberTruthy p then Num.le (ToNumber (Percentile item)) p else true
    | None => true
    end in
  let rankMatch :=
    match userRank with
    | Some r => if numberTruthy r then Num.ge (ToNumber (Rank item)) r else true
    | None => true
    end in
  percentileMatch || rankMatch.

(** ** The rows of the table *)

Section Rows.

(** [Number.prototype.toLocaleString], which depends on the locale of the
    browser. *)
Variable toLocaleString : number -> string.

(** The five cells of a table row.  [item.Rank.toLocaleString()] is a
    method call on the field: on a row without [Rank] it throws a
    TypeError, here [None]; the other cells show the fields as they are. *)
Definition rowCells (item : CutoffData)
    : option (string * option number * option string * option string
              * option string) :=
  match Rank item with
  | Some n =>
      Some (toLocaleString n, Percentile item, Choice_Code item,
            Institute_Name item, Course_Name item)
  | None => None
  end.

(** [paginatedData.map(...)]: the rows of the table body, [None] when one
    of them throws. *)
Definition tableBody (rows : list CutoffData)
    : option (list (string * option number * option string * option string
                    * option string)) :=
  mapM rowCells rows.

End Rows.

(** ** Rows with the same key *)

(** The keys of [x] and [y] are numbers that are equal. *)
Definition sameKey (f : SortField) (x y : CutoffData) : Prop :=
  inOrder f asc x y /\ inOrder f asc y x.

(** No two rows of [l] have the same key. *)
Definition distinctKeys (f : SortField) (l : list CutoffData) : Prop :=
  forall (i j : nat) (x y : CutoffData),
    l !! i = Some x -> l !! j = Some y -> sameKey f x y -> i = j.

(** ** Observations of a render and of a session *)

(** The rows of the array [filteredAndSortedData] returns. *)
Definition filteredRows (st : State) (h : Heap) : list CutoffData :=
  let fs := filteredAndSortedData st h in contents fs.2 fs.1.

(** The actions that type into a filter field. *)
Definition isEdit (a : Action) : bool :=
  match a with
  | EditRank _ | EditPercentile _ | EditSearch _ => true
  | _ => false
  end.

(** The page number is one of the pages there are (page 1 when there is
    none). *)
Definition validPage (st : State) (h : Heap) : Prop :=
  1 <= currentPage st <= Z.max 1 (viewPages (render st h).1).

(** * Proofs *)

(** ** Numbers *)

Lemma Num_le_Le (a b : number) : Num.le a b = true <-> Num.Le a b.
Proof.
  destruct a, b; simpl; try (split; [discriminate | tauto]);
    try tauto.
  apply Qle_bool_iff.
Qed.

Lemma Num_ge_Le (a b : number) : Num.ge a b = true <-> Num.Le b a.
Proof. apply Num_le_Le. Qed.

#[global] Instance Num_Le_dec : RelDecision Num.Le.
Proof.
  intros a b. destruct (Num.le a b) eqn:E.
  - left. by apply Num_le_Le.
  - right. intros H. apply Num_le_Le in H. congruence.
Defined.

Lemma Num_Le_NaN_r (a : number) : ~ Num.Le a Num.NaN.
Proof. destruct a; simpl; tauto. Qed.

Lemma Num_Le_NaN_l (a : number) : ~ Num.Le Num.NaN a.
Proof. destruct a; simpl; tauto. Qed.

Lemma Num_Le_total (a b : number) :
  Num.isNaN a = false -> Num.isNaN b = false -> Num.Le a b \/ Num.Le b a.
Proof.
  destruct a, b; simpl; try discriminate; auto.
  intros _ _. destruct (Qlt_le_dec q q0) as [H | H]; auto using Qlt_le_weak.
Qed.

Lemma Num_Le_trans (a b c : number) :
  Num.Le a b -> Num.Le b c -> Num.Le a c.
Proof.
  destruct a, b, c; simpl; try tauto. apply Qle_trans.
Qed.

(** The sign of a difference decides the order of its operands. *)
Lemma Num_sign_sub_Gt (a b : number) :
  Num.isNaN a = false -> Num.isNaN b = false ->
  Num.sign (Num.sub a b) = Some Gt <-> ~ Num.Le a b.
Proof.
  destruct a as [| | x |], b as [| | y |]; simpl; try discriminate;
    intros _ _; try (split; [intros; tauto || discriminate | tauto]);
    try (split; [discriminate | tauto]).
  split.
  - intros [= H]. apply Qgt_alt in H. apply Qlt_not_le.
    apply Qlt_minus_iff. exact H.
  - intros H. f_equal. apply Qgt_alt. apply Qnot_le_lt in H.
    apply Qlt_minus_iff in H. exact H.
Qed.


(** ** [Array.prototype.sort] *)

Section SortFacts.
Context {A : Type} (comparefn : A -> A -> number).

Abbreviation cmp := (Arr.SortCompare comparefn).
Abbreviation insert := (Arr.insert comparefn).
Abbreviation sort := (Arr.sort comparefn).

Lemma insert_Permutation (x : A) (l : list A) : insert x l ≡ₚ x :: l.
Proof.
  induction l as [| y l IH]; simpl; [done |].
  destruct (cmp x y); try done.
  rewrite IH. apply Permutation_swap.
Qed.

Lemma sort_Permutation (l : list A) : sort l ≡ₚ l.
Proof.
  induction l as [| x l IH]; simpl; [done |].
  by rewrite insert_Permutation, IH.
Qed.

Lemma sort_length (l : list A) : length (sort l) = length l.
Proof. by rewrite sort_Permutation. Qed.

(** Stability: a class of elements none of which the comparator puts
    strictly after another keeps its order. *)
Section Stable.
Context (P : A -> Prop) `{!forall x, Decision (P x)}.

Lemma filter_insert (x : A) (l : list A) :
  (forall y, y ∈ l -> P x -> P y -> cmp x y <> Gt) ->
  filter P (insert x l) = filter P (x :: l).
Proof.
  intros unordered. induction l as [| y l IH]; simpl; [done |].
  destruct (cmp x y) eqn:E; try done.
  rewrite filter_cons, IH, !filter_cons.
  - destruct (decide (P y)) as [Hy | Hy], (decide (P x)) as [Hx | Hx];
      try done.
    destruct (unordered y) as []; [by left | done..].
  - intros z Hz. apply unordered. by right.
Qed.

Lemma filter_sort (l : list A) :
  (forall x y, x ∈ l -> y ∈ l -> P x -> P y -> cmp x y <> Gt) ->
  filter P (sort l) = filter P l.
Proof.
  induction l as [| x l IH]; simpl; intros unordered; [done |].
  rewrite filter_insert, !filter_cons, IH; [done | |].
  - intros y z Hy Hz. apply unordered; by right.
  - intros y Hy. apply unordered; [by left |].
    right. by rewrite <- (sort_Permutation l).
Qed.
End Stable.

(** Order: on elements whose comparisons agree with a total preorder,
    the result is sorted. *)
Section Ordered.
Context (Q : A -> Prop) (R : A -> A -> Prop).
Hypothesis agrees : forall x y, Q x -> Q y -> (cmp x y <> Gt <-> R x y).
Hypothesis total : forall x y, Q x -> Q y -> R x y \/ R y x.
Hypothesis trans :
  forall x y z, Q x -> Q y -> Q z -> R x y -> R y z -> R x z.

Lemma insert_StronglySorted (x : A) (l : list A) :
  Q x -> Forall Q l -> StronglySorted R l -> StronglySorted R (insert x l).
Proof.
  intros Hx Hl Hs. induction l as [| y l IH]; simpl.
  - repeat constructor.
  - apply Forall_cons in Hl as [Hy Hl].
    apply StronglySorted_inv in Hs as [Hs Hyl].
    assert (Hxy : cmp x y <> Gt -> StronglySorted R (x :: y :: l)).
    { intros Hc. apply agrees in Hc; [| done..].
      constructor; [by constructor |]. constructor; [done |].
      rewrite Forall_forall in Hl, Hyl. apply Forall_forall.
      intros z Hz. apply (trans x y z); auto. }
    destruct (cmp x y) eqn:E; try (apply Hxy; congruence).
    constructor; [by apply IH |].
    rewrite insert_Permutation. constructor; [| done].
    destruct (total x y Hx Hy) as [H | H]; [| done].
    apply agrees in H; [| done..]. by rewrite E in H.
Qed.

Lemma sort_StronglySorted (l : list A) :
  Forall Q l -> StronglySorted R (sort l).
Proof.
  induction l as [| x l IH]; simpl; [constructor |].
  intros [Hx Hl]%Forall_cons.
  apply insert_StronglySorted; [done | | by apply IH].
  by rewrite sort_Permutation.
Qed.

(** A stable sort is determined by the comparator.  Two arrangements of the
    same elements that are both sorted, and in which every class of
    elements that compare equal stands in the same order, are the same
    list. *)
Lemma sorted_stable_unique `{!RelDecision R} (l1 l2 : list A) :
  Forall Q l1 -> l1 ≡ₚ l2 ->
  StronglySorted R l1 -> StronglySorted R l2 ->
  (forall x, Q x ->
     filter (fun y => R x y /\ R y x) l1 = filter (fun y => R x y /\ R y x) l2) ->
  l1 = l2.
Proof.
  revert l2. induction l1 as [| a t1 IH]; intros l2 HQ Hperm Hs1 Hs2 Hcls.
  - by apply Permutation_nil_l in Hperm.
  - destruct l2 as [| b t2]; [by apply Permutation_nil_r in Hperm |].
    apply Forall_cons in HQ as [Ha HQ].
    apply StronglySorted_inv in Hs1 as [Hs1 Hat1].
    apply StronglySorted_inv in Hs2 as [Hs2 Hbt2].
    assert (Haa : R a a) by (by destruct (total a a Ha Ha)).
    assert (Hb : b ∈ a :: t1) by (rewrite Hperm; by left).
    assert (Ha' : a ∈ b :: t2) by (rewrite <- Hperm; by left).
    assert (Hab : R a b).
    { apply elem_of_cons in Hb as [-> | Hb]; [done |].
      rewrite Forall_forall in Hat1. by apply Hat1. }
    assert (Hba : R b a).
    { apply elem_of_cons in Ha' as [-> | Ha']; [done |].
      rewrite Forall_forall in Hbt2. by apply Hbt2. }
    pose proof (Hcls a Ha) as Hhead.
    rewrite filter_cons_True, (filter_cons_True _ b) in Hhead by done.
    injection Hhead as <- _.
    f_equal. apply IH; try done.
    + by apply Permutation_cons_inv in Hperm.
    + intros x Hx. specialize (Hcls x Hx). rewrite !filter_cons in Hcls.
      destruct (decide (R x a /\ R a x)); [by injection Hcls | done].
Qed.

(** So the list computed here is the only one a stable sort can give. *)
Lemma sort_unique `{!RelDecision R} (l l' : list A) :
  Forall Q l -> l' ≡ₚ l -> StronglySorted R l' ->
  (forall x, Q x ->
     filter (fun y => R x y /\ R y x) l' = filter (fun y => R x y /\ R y x) l) ->
  l' = sort l.
Proof.
  intros HQ Hperm Hs Hcls.
  apply sorted_stable_unique; try done.
  - by rewrite Hperm.
  - by rewrite sort_Permutation.
  - by apply sort_StronglySorted.
  - intros x Hx. rewrite (Hcls x Hx). symmetry. apply filter_sort.
    rewrite Forall_forall in HQ.
    intros y z Hy Hz (Hxy & Hyx) (Hxz & Hzx).
    apply agrees; [auto | auto |]. apply (trans y x z); auto.
Qed.
End Ordered.

End SortFacts.

(** ** Strings *)

Lemma truthy_true (s : string) : Str.truthy s = true <-> s <> "".
Proof. destruct s; simpl; split; congruence. Qed.

Lemma truthy_false (s : string) : Str.truthy s = false <-> s = "".
Proof. destruct s; simpl; split; congruence. Qed.

Lemma orEmpty_nameText (v : option string) : orEmpty v = nameText v.
Proof. by destruct v as [[]|]. Qed.

Lemma toLowerCase_app (a b : string) :
  Str.toLowerCase (a ++ b) = Str.toLowerCase a ++ Str.toLowerCase b.
Proof. induction a as [| c a IH]; simpl; [done | by rewrite IH]. Qed.

(** A split of the lowered string comes from a split of the string. *)
Lemma toLowerCase_app_inv (s a b : string) :
  Str.toLowerCase s = a ++ b ->
  exists s1 s2, s = s1 ++ s2 /\ Str.toLowerCase s1 = a /\ Str.toLowerCase s2 = b.
Proof.
  revert s. induction a as [| c a IH]; intros s H.
  - exists "", s. by simpl in *.
  - destruct s as [| d s]; simpl in H; [discriminate |].
    injection H as Hc H. destruct (IH s H) as (s1 & s2 & -> & H1 & H2).
    exists (String d s1), s2. simpl. by rewrite Hc, H1, H2.
Qed.

Lemma startsWith_spec (s needle : string) :
  Str.startsWith s needle = true <-> exists post, s = needle ++ post.
Proof.
  revert s. induction needle as [| a needle IH]; intros [| b s]; simpl.
  - split; [by exists "" | done].
  - split; [by exists (String b s) | done].
  - split; [done | by intros [? ?]].
  - rewrite andb_true_iff, Ascii.eqb_eq, IH. split.
    + intros [-> [post ->]]. by exists post.
    + intros [post [= -> ->]]. split; [done | by exists post].
Qed.

Lemma includes_spec (s needle : string) :
  Str.includes s needle = true <-> exists pre post, s = pre ++ needle ++ post.
Proof.
  induction s as [| c s IH]; cbn [Str.includes];
    rewrite orb_true_iff, startsWith_spec.
  - split.
    + intros [[post ->] | ?]; [by exists "", post | done].
    + intros (pre & post & H). left.
      destruct pre; simpl in H; [by exists post | done].
  - rewrite IH. split.
    + intros [[post ->] | (pre & post & ->)]; [by exists "", post |].
      by exists (String c pre), post.
    + intros (pre & post & H). destruct pre as [| d pre]; simpl in H.
      * left. by exists post.
      * injection H as -> ->. right. by exists pre, post.
Qed.

(** The search test of the component is the occurrence up to case. *)
Lemma includes_toLowerCase (s needle : string) :
  Str.includes (Str.toLowerCase s) (Str.toLowerCase needle) = true
  <-> ciSubstring needle s.
Proof.
  rewrite includes_spec. unfold ciSubstring, sameIgnoringCase. split.
  - intros (pre & post & H).
    apply toLowerCase_app_inv in H as (s1 & s23 & -> & _ & H).
    apply toLowerCase_app_inv in H as (s2 & s3 & -> & H & _).
    by exists s1, s2, s3.
  - intros (pre & mid & post & -> & H).
    exists (Str.toLowerCase pre), (Str.toLowerCase post).
    by rewrite !toLowerCase_app, H.
Qed.

Lemma isWhiteSpace_lowerChar (c : ascii) :
  Str.isWhiteSpace (Str.lowerChar c) = Str.isWhiteSpace c.
Proof. by destruct c as [[] [] [] [] [] [] [] []]. Qed.

Lemma trimStart_toLowerCase (s : string) :
  Str.trimStart (Str.toLowerCase s) = Str.toLowerCase (Str.trimStart s).
Proof.
  induction s as [| c s IH]; simpl; [done |].
  rewrite isWhiteSpace_lowerChar. by destruct (Str.isWhiteSpace c).
Qed.

Lemma trimEnd_toLowerCase (s : string) :
  Str.trimEnd (Str.toLowerCase s) = Str.toLowerCase (Str.trimEnd s).
Proof.
  induction s as [| c s IH]; simpl; [done |].
  rewrite IH, isWhiteSpace_lowerChar.
  destruct (Str.trimEnd s); simpl; [| done].
  by destruct (Str.isWhiteSpace c).
Qed.

(** Lowering and trimming commute. *)
Lemma trim_toLowerCase (s : string) :
  Str.trim (Str.toLowerCase s) = Str.toLowerCase (Str.trim s).
Proof.
  unfold Str.trim. by rewrite trimStart_toLowerCase, trimEnd_toLowerCase.
Qed.

(** *** Text as a list of characters *)

Lemma chars_app (a b : string) : chars (a ++ b) = (chars a ++ chars b)%list.
Proof.
  induction a as [| c a IH]; [done |].
  change (c :: chars (a ++ b) = c :: (chars a ++ chars b)%list). by f_equal.
Qed.

Lemma string_of_app (k l : list ascii) :
  string_of_list_ascii (k ++ l)
  = string_of_list_ascii k ++ string_of_list_ascii l.
Proof.
  induction k as [| c k IH]; [done |].
  change (String c (string_of_list_ascii (k ++ l))
          = String c (string_of_list_ascii k ++ string_of_list_ascii l)).
  by f_equal.
Qed.

Lemma chars_string_of (l : list ascii) : chars (string_of_list_ascii l) = l.
Proof. apply list_ascii_of_string_of_list_ascii. Qed.

Lemma string_of_chars (s : string) : string_of_list_ascii (chars s) = s.
Proof. apply string_of_list_ascii_of_string. Qed.

Lemma asciiText_string_of (l : list ascii) :
  asciiText (string_of_list_ascii l)
  <-> Forall (fun c => (nat_of_ascii c < 128)%nat) l.
Proof. unfold asciiText. by rewrite chars_string_of. Qed.

#[global] Instance blankChar_dec c : Decision (blankChar c).
Proof. unfold blankChar. apply _. Defined.

#[global] Instance sameLetter_dec c d : Decision (sameLetter c d).
Proof. unfold sameLetter. apply _. Defined.

#[global] Instance startsLike_dec cs needle : Decision (startsLike cs needle).
Proof.
  revert cs. induction needle as [| d needle IH]; intros [| c cs]; simpl;
    apply _.
Defined.

#[global] Instance occursIn_dec cs needle : Decision (occursIn cs needle).
Proof. induction cs as [| c cs IH]; cbn [occursIn]; apply _. Defined.

Lemma startsLike_spec (cs needle : list ascii) :
  startsLike cs needle
  <-> exists mid post, cs = (mid ++ post)%list /\ Forall2 sameLetter mid needle.
Proof.
  revert cs. induction needle as [| d needle IH]; intros [| c cs]; simpl.
  - split; [| done]. intros _. exists [], []. by split.
  - split; [| done]. intros _. exists [], (c :: cs). by split.
  - split; [done |]. intros (mid & post & H & H2).
    apply Forall2_cons_inv_r in H2 as (x & mid' & _ & _ & ->). done.
  - rewrite IH. split.
    + intros (Hcd & mid & post & -> & Hmid).
      exists (c :: mid), post. split; [done | by constructor].
    + intros (mid & post & H & H2).
      apply Forall2_cons_inv_r in H2 as (x & mid' & Hx & Hmid & ->).
      injection H as -> ->. split; [done |]. by exists mid', post.
Qed.

Lemma occursIn_spec (cs needle : list ascii) :
  occursIn cs needle
  <-> exists pre mid post,
        cs = (pre ++ mid ++ post)%list /\ Forall2 sameLetter mid needle.
Proof.
  induction cs as [| c cs IH]; cbn [occursIn]; rewrite startsLike_spec.
  - split.
    + intros [(mid & post & H & H2) | []]. by exists [], mid, post.
    + intros (pre & mid & post & H & H2). left.
      destruct pre; [| done]. by exists mid, post.
  - rewrite IH. split.
    + intros [(mid & post & H & H2) | (pre & mid & post & -> & H2)].
      * by exists [], mid, post.
      * by exists (c :: pre), mid, post.
    + intros (pre & mid & post & H & H2). destruct pre as [| x pre].
      * left. by exists mid, post.
      * injection H as -> ->. right. by exists pre, mid, post.
Qed.

#[global] Instance occursIgnoringCase_dec needle s :
  Decision (occursIgnoringCase needle s).
Proof.
  destruct (decide (occursIn (chars s) needle)) as [H | H].
  - left. by apply occursIn_spec.
  - right. intros H'. by apply H, occursIn_spec.
Defined.

(** *** White space and letters in ASCII *)

Lemma blankChar_isWhiteSpace (c : ascii) :
  blankChar c -> Str.isWhiteSpace c = true.
Proof.
  unfold blankChar, whiteSpaceCodes, Str.isWhiteSpace.
  rewrite !elem_of_cons, elem_of_nil.
  intros [-> | [-> | [-> | [-> | [-> | [-> | []]]]]]]; done.
Qed.

Lemma isWhiteSpace_blankChar (c : ascii) :
  (nat_of_ascii c < 128)%nat -> Str.isWhiteSpace c = true -> blankChar c.
Proof.
  unfold blankChar, whiteSpaceCodes, Str.isWhiteSpace.
  rewrite !elem_of_cons, elem_of_nil. intros Hc H.
  apply orb_true_iff in H as [H | H]; [| apply Nat.eqb_eq in H; lia].
  apply orb_true_iff in H as [H | H]; [| apply Nat.eqb_eq in H; lia].
  apply andb_true_iff in H as [H1 H2].
  apply Nat.leb_le in H1, H2. lia.
Qed.

Lemma ascii_below (bound : nat) (P : ascii -> Prop) :
  Forall (fun n => P (ascii_of_nat n)) (seq 0 bound) ->
  forall c, (nat_of_ascii c < bound)%nat -> P c.
Proof.
  intros H c Hc. rewrite Forall_forall in H.
  rewrite <- (ascii_nat_embedding c). apply H, elem_of_seq. lia.
Qed.

(** In ASCII two characters have one lower case exactly when they are the
    same character or the two forms of one letter. *)
Lemma lowerChar_sameLetter (c d : ascii) :
  (nat_of_ascii c < 128)%nat -> (nat_of_ascii d < 128)%nat ->
  (Str.lowerChar c = Str.lowerChar d <-> sameLetter c d).
Proof.
  intros Hc Hd. revert d Hd. revert c Hc.
  apply (ascii_below 128
           (fun c => forall d, (nat_of_ascii d < 128)%nat ->
                      Str.lowerChar c = Str.lowerChar d <-> sameLetter c d)).
  apply Forall_forall. intros n Hn.
  apply (ascii_below 128
           (fun d => Str.lowerChar (ascii_of_nat n) = Str.lowerChar d
                     <-> sameLetter (ascii_of_nat n) d)).
  revert n Hn. apply Forall_forall.
  apply (bool_decide_unpack _). by vm_compute.
Qed.

Lemma toLowerCase_sameLetter (a b : string) :
  asciiText a -> asciiText b ->
  (Str.toLowerCase a = Str.toLowerCase b
   <-> Forall2 sameLetter (chars a) (chars b)).
Proof.
  unfold asciiText. revert b.
  induction a as [| c a IH]; intros [| d b] Ha Hb; simpl.
  - split; [constructor | done].
  - split; [done | by intros H; inversion H].
  - split; [done | by intros H; inversion H].
  - apply Forall_cons in Ha as [Hc Ha]. apply Forall_cons in Hb as [Hd Hb].
    split.
    + intros [= H1 H2]. constructor.
      * by apply lowerChar_sameLetter.
      * by apply IH.
    + intros H. apply Forall2_cons in H as [H1 H2].
      apply lowerChar_sameLetter in H1; [| done..].
      apply IH in H2; [| done..]. by rewrite H1, H2.
Qed.

(** On ASCII text the occurrence up to case that the component computes is
    the occurrence letter by letter. *)
Lemma ciSubstring_occurs (needle s : string) :
  asciiText needle -> asciiText s ->
  (ciSubstring needle s <-> occursIgnoringCase (chars needle) s).
Proof.
  intros Hn Hs. unfold ciSubstring, sameIgnoringCase, occursIgnoringCase. split.
  - intros (pre & mid & post & -> & H).
    exists (chars pre), (chars mid), (chars post).
    rewrite !chars_app. split; [done |].
    apply toLowerCase_sameLetter; [| done | done].
    unfold asciiText in Hs. rewrite !chars_app, !Forall_app in Hs. tauto.
  - intros (pre & mid & post & H & H2).
    exists (string_of_list_ascii pre), (string_of_list_ascii mid),
      (string_of_list_ascii post).
    split.
    + by rewrite <- !string_of_app, <- H, string_of_chars.
    + apply toLowerCase_sameLetter; [| done | by rewrite chars_string_of].
      apply asciiText_string_of.
      unfold asciiText in Hs. rewrite H, !Forall_app in Hs. tauto.
Qed.

(** *** Trimming *)

Lemma trimStart_blank (l k : list ascii) :
  Forall blankChar l ->
  Str.trimStart (string_of_list_ascii (l ++ k))
  = Str.trimStart (string_of_list_ascii k).
Proof.
  induction 1 as [| c l Hc Hl IH]; [done |].
  simpl. by rewrite (blankChar_isWhiteSpace c Hc).
Qed.

Lemma trimStart_head (k : list ascii) :
  (forall c, head k = Some c -> Str.isWhiteSpace c = false) ->
  Str.trimStart (string_of_list_ascii k) = string_of_list_ascii k.
Proof. destruct k as [| c k]; [done |]. intros H. simpl. by rewrite H. Qed.

Lemma trimEnd_all_blank (r : list ascii) :
  Forall blankChar r -> Str.trimEnd (string_of_list_ascii r) = "".
Proof.
  induction 1 as [| c r Hc Hr IH]; [done |].
  simpl. by rewrite IH, (blankChar_isWhiteSpace c Hc).
Qed.

Lemma trimEnd_blank (t r : list ascii) :
  Forall blankChar r ->
  Str.trimEnd (string_of_list_ascii (t ++ r))
  = Str.trimEnd (string_of_list_ascii t).
Proof.
  intros Hr. induction t as [| c t IH]; simpl.
  - by apply trimEnd_all_blank.
  - by rewrite IH.
Qed.

Lemma trimEnd_last (t : list ascii) :
  (forall c, last t = Some c -> Str.isWhiteSpace c = false) ->
  Str.trimEnd (string_of_list_ascii t) = string_of_list_ascii t.
Proof.
  induction t as [| c t IH]; [done |]. intros H.
  destruct t as [| d t].
  - simpl. by rewrite (H c).
  - rewrite last_cons_cons in H. specialize (IH H).
    change (string_of_list_ascii (c :: d :: t))
      with (String c (string_of_list_ascii (d :: t))).
    cbn [Str.trimEnd]. by rewrite IH.
Qed.

(** On ASCII text [trim] removes the white space at the two ends. *)
Lemma trim_trimmedText (s : string) (t : list ascii) :
  asciiText s -> trimmedText s t -> Str.trim s = string_of_list_ascii t.
Proof.
  intros Hs (l & r & H & Hl & Hr & Hhead & Hlast).
  assert (Ht : Forall (fun c => (nat_of_ascii c < 128)%nat) t).
  { unfold asciiText in Hs. rewrite H, !Forall_app in Hs. tauto. }
  rewrite Forall_forall in Ht.
  assert (Hw : forall c, c ∈ t -> ~ blankChar c -> Str.isWhiteSpace c = false).
  { intros c Hc Hn. destruct (Str.isWhiteSpace c) eqn:E; [| done].
    destruct Hn. apply isWhiteSpace_blankChar; auto. }
  rewrite <- (string_of_chars s), H. unfold Str.trim.
  rewrite trimStart_blank by done.
  destruct t as [| c t].
  - simpl. rewrite <- (app_nil_r r), trimStart_blank by done. done.
  - rewrite trimStart_head.
    + rewrite trimEnd_blank by done. apply trimEnd_last.
      intros x Hx. apply Hw; [| by apply Hlast].
      by apply last_Some_elem_of.
    + intros x [= <-]. apply Hw; [by left | by apply Hhead].
Qed.




(** ** Filters: the callback and the criterion *)

Lemma filter_callback {A : Type} (f : A -> bool) (P : A -> Prop)
    `{!forall x, Decision (P x)} (l : list A) :
  (forall x, f x = true <-> P x) -> List.filter f l = filter P l.
Proof.
  intros Hf. induction l as [| x l IH]; simpl; [done |].
  rewrite filter_cons, IH.
  destruct (decide (P x)) as [Hx | Hx], (f x) eqn:E; try done.
  - apply Hf in Hx. congruence.
  - apply Hf in E. done.
Qed.

Lemma filter_all {A : Type} (P : A -> Prop) `{!forall x, Decision (P x)}
    (l : list A) :
  Forall P l -> filter P l = l.
Proof.
  induction 1 as [| x l Hx Hl IH]; [done |].
  by rewrite filter_cons_True, IH.
Qed.

Lemma filter_none {A : Type} (P : A -> Prop) `{!forall x, Decision (P x)}
    (l : list A) :
  Forall (fun x => ~ P x) l -> filter P l = [].
Proof.
  induction 1 as [| x l Hx Hl IH]; [done |].
  by rewrite filter_cons_False, IH.
Qed.

#[global] Instance meetsPercentile_dec pT r : Decision (meetsPercentile pT r).
Proof. destruct pT; simpl; apply _. Defined.

#[global] Instance meetsRank_dec rT r : Decision (meetsRank rT r).
Proof. destruct rT; simpl; apply _. Defined.

#[global] Instance number_eq_none_dec (o : option number) : Decision (o = None).
Proof. destruct o; [right | left]; done. Defined.

#[global] Instance passesThreshold_dec rT pT r : Decision (passesThreshold rT pT r).
Proof. unfold passesThreshold. apply _. Defined.

#[global] Instance ciSubstring_dec needle s : Decision (ciSubstring needle s).
Proof.
  destruct (Str.includes (Str.toLowerCase s) (Str.toLowerCase needle)) eqn:E.
  - left. by apply includes_toLowerCase.
  - right. intros H. apply includes_toLowerCase in H. congruence.
Defined.

#[global] Instance passesSearch_dec searchText r : Decision (passesSearch searchText r).
Proof. unfold passesSearch. apply _. Defined.

(** The threshold callback keeps the records that satisfy one of the
    thresholds that are set. *)
Lemma thresholdCallback_spec (rankFilter percentileFilter : string) (r : CutoffData) :
  thresholdCallback rankFilter percentileFilter r = true
  <-> meetsPercentile (percentileThreshold percentileFilter) r
      \/ meetsRank (rankThreshold rankFilter) r.
Proof.
  unfold thresholdCallback, percentileThreshold, rankThreshold.
  destruct percentileFilter as [| c1 p], rankFilter as [| c2 k]; simpl;
    rewrite ?orb_true_iff, ?Num_le_Le, ?Num_ge_Le;
    repeat case_decide; try done; simpl; intuition discriminate.
Qed.

Lemma thresholdStage_spec (rankFilter percentileFilter : string) (l : list CutoffData) :
  thresholdStage rankFilter percentileFilter l
  = filter (passesThreshold (rankThreshold rankFilter)
              (percentileThreshold percentileFilter)) l.
Proof.
  unfold thresholdStage.
  destruct (Str.truthy rankFilter || Str.truthy percentileFilter) eqn:E.
  - apply filter_callback. intros r. rewrite thresholdCallback_spec.
    unfold passesThreshold. split; [tauto |]. intros [[H1 H2] | H]; [| done].
    apply orb_true_iff in E as [E | E]; apply truthy_true in E;
      unfold rankThreshold, percentileThreshold in *;
      repeat case_decide; congruence.
  - apply orb_false_iff in E as [E1 E2].
    apply truthy_false in E1, E2. subst.
    symmetry. apply filter_all, Forall_forall. intros r _. by left.
Qed.

(** The search callback, for the search text the component gives it. *)
Lemma searchCallback_spec (searchText : string) (r : CutoffData) :
  searchCallback (Str.trim (Str.toLowerCase searchText)) r = true
  <-> ciSubstring (Str.trim searchText) (nameText (Institute_Name r))
      \/ ciSubstring (Str.trim searchText) (nameText (Course_Name r)).
Proof.
  unfold searchCallback.
  by rewrite orb_true_iff, trim_toLowerCase, !includes_toLowerCase,
    !orEmpty_nameText.
Qed.

Lemma searchStage_spec (searchText : string) (l : list CutoffData) :
  searchStage searchText l = filter (passesSearch searchText) l.
Proof.
  unfold searchStage. destruct (Str.truthy (Str.trim searchText)) eqn:E.
  - apply filter_callback. intros r. rewrite searchCallback_spec.
    unfold passesSearch. apply truthy_true in E. tauto.
  - apply truthy_false in E. symmetry. apply filter_all, Forall_forall. intros r _. by left.
Qed.

(** ** The store *)

Lemma contents_Some (h : Heap) (a : loc) (l : list CutoffData) :
  h !! a = Some l -> contents h a = l.
Proof. unfold contents. by intros ->. Qed.

Lemma alloc_allocated (h0 h : Heap) (l : list CutoffData) :
  h0 ⊆ h -> allocated h0 l (alloc l h).
Proof.
  intros Hsub. unfold allocated, alloc. simpl.
  assert (Hfresh : h !! fresh (dom h) = None).
  { apply not_elem_of_dom. apply is_fresh. }
  assert (Hfresh0 : h0 !! fresh (dom h) = None).
  { by eapply lookup_weaken_None. }
  split_and!; [| done | by apply lookup_insert_eq].
  by apply insert_subseteq_r.
Qed.

(** Copying an array leaves what a reference reads unchanged, whether or
    not that reference is in the store. *)
Lemma contents_alloc (h : Heap) (a : loc) (l : list CutoffData) :
  h !! a = Some l \/ l = contents h a ->
  contents (alloc l h).2 a = contents h a.
Proof.
  unfold alloc, contents. simpl. intros H.
  destruct (decide (fresh (dom h) = a)) as [<- | Hne].
  - rewrite lookup_insert_eq. simpl.
    assert (Hfresh : h !! fresh (dom h) = None).
    { apply not_elem_of_dom. apply is_fresh. }
    destruct H as [H | ->]; [congruence |].
    unfold contents. by rewrite Hfresh.
  - by rewrite lookup_insert_ne.
Qed.

Lemma Array_spread_allocated (h : Heap) (a : loc) :
  allocated h (contents h a) (Array_spread a h).
Proof. by apply alloc_allocated. Qed.

Lemma Array_filter_allocated (h0 h : Heap) (a : loc) (f : CutoffData -> bool) :
  h0 ⊆ h -> allocated h0 (List.filter f (contents h a)) (Array_filter a f h).
Proof. intros H. by apply alloc_allocated. Qed.

Lemma Array_slice_allocated (h0 h : Heap) (a : loc) (start end_ : Z) :
  h0 ⊆ h -> allocated h0 (Arr.slice (contents h a) start end_)
              (Array_slice a start end_ h).
Proof. intros H. by apply alloc_allocated. Qed.

(** Sorting a new array in place leaves the older ones alone. *)
Lemma Array_sort_allocated (h0 h : Heap) (a : loc) (l : list CutoffData)
    (f : CutoffData -> CutoffData -> number) :
  allocated h0 l (a, h) -> allocated h0 (Arr.sort f l) (Array_sort a f h).
Proof.
  intros (Hsub & Hnew & Hl). simpl in *.
  unfold allocated, Array_sort, bind, read, write, ret. simpl.
  rewrite (contents_Some _ _ _ Hl).
  split_and!; [by apply insert_subseteq_r | done | by apply lookup_insert_eq].
Qed.

(** The array that [filteredAndSortedData] returns is new, holds the
    elements [pipeline] computes from those of [data], and every array of
    the store before the call is as it was. *)
Lemma filteredAndSortedData_run (st : State) (h : Heap) :
  allocated h (pipeline st (contents h (data st))) (filteredAndSortedData st h).
Proof.
  unfold filteredAndSortedData, pipeline, bind.
  pose proof (Array_spread_allocated h (data st)) as H1.
  assert (Hd : contents (Array_spread (data st) h).2 (data st)
               = contents h (data st)).
  { apply contents_alloc. by right. }
  destruct (Array_spread (data st) h) as [a1 h1]. simpl in Hd.
  (* threshold filter *)
  set (l2 := thresholdStage (rankFilter st) (percentileFilter st)
               (contents h (data st))).
  assert (H2 : allocated h l2
    ((if Str.truthy (rankFilter st) || Str.truthy (percentileFilter st)
      then Array_filter (data st)
             (thresholdCallback (rankFilter st) (percentileFilter st))
      else ret a1) h1)).
  { unfold l2, thresholdStage.
    destruct (Str.truthy (rankFilter st) || Str.truthy (percentileFilter st)).
    - rewrite <- Hd. apply Array_filter_allocated. apply H1.
    - exact H1. }
  match type of H2 with allocated _ _ ?r => destruct r as [a2 h2] end.
  (* search filter *)
  set (l3 := searchStage (searchFilter st) l2).
  assert (H3 : allocated h l3
    ((if Str.truthy (Str.trim (searchFilter st))
      then Array_filter a2
             (searchCallback (Str.trim (Str.toLowerCase (searchFilter st))))
      else ret a2) h2)).
  { unfold l3, searchStage.
    destruct (Str.truthy (Str.trim (searchFilter st))).
    - rewrite <- (contents_Some h2 a2 l2) by apply H2.
      apply Array_filter_allocated. apply H2.
    - exact H2. }
  match type of H3 with allocated _ _ ?r => destruct r as [a3 h3] end.
  (* sort, in place *)
  pose proof (Array_sort_allocated h h3 a3 l3
                (compareFn (sortField st) (sortOrder st)) H3) as H4.
  unfold Array_sort, bind, read, write, ret in *. simpl in *. exact H4.
Qed.

Lemma render_run (st : State) (h : Heap) :
  (render st h).1 = view st (contents h (data st)) /\ h ⊆ (render st h).2.
Proof.
  unfold render, bind.
  pose proof (filteredAndSortedData_run st h) as (Hsub & Hnew & Hl).
  destruct (filteredAndSortedData st h) as [fs h1]. cbn [fst snd] in *.
  assert (Hrefl : h1 ⊆ h1) by done.
  pose proof (Array_slice_allocated h1 h1 fs
    ((currentPage st - 1) * itemsPerPage)
    ((currentPage st - 1) * itemsPerPage + itemsPerPage) Hrefl)
    as (Hsub2 & _ & Hl2).
  unfold paginatedData.
  destruct (Array_slice fs _ _ h1) as [pd h2]. cbn [fst snd] in *.
  pose proof (lookup_weaken _ _ _ _ Hl Hsub2) as Hfs.
  unfold totalPages, Array_length, bind, read, ret. cbn [fst snd].
  rewrite (contents_Some _ _ _ Hl2), (contents_Some _ _ _ Hfs),
    (contents_Some _ _ _ Hl).
  split; [done | by etrans].
Qed.

(** ** Slices and page counts *)

Lemma slice_lookup {A : Type} (l : list A) (start n : Z) (i : nat) :
  0 <= start -> 0 <= n ->
  Arr.slice l start (start + n) !! i
  = if decide (Z.of_nat i < n) then l !! (Z.to_nat start + i)%nat else None.
Proof.
  intros Hs Hn. unfold Arr.slice.
  destruct (Z.ltb_spec start 0) as [? | _]; [lia |].
  destruct (Z.ltb_spec (start + n) 0) as [? | _]; [lia |].
  set (len := Z.of_nat (length l)).
  destruct (decide (Z.of_nat i < Z.max (Z.min (start + n) len - Z.min start len) 0))
    as [Hi | Hi].
  - rewrite lookup_take_lt by lia. rewrite lookup_drop.
    rewrite decide_True by lia. f_equal. lia.
  - rewrite lookup_take_ge by lia.
    case_decide; [| done]. symmetry. apply lookup_ge_None. lia.
Qed.

Lemma slice_length {A : Type} (l : list A) (start n : Z) :
  0 <= start -> 0 <= n ->
  Z.of_nat (length (Arr.slice l start (start + n)))
  = Z.min (start + n) (Z.of_nat (length l)) - Z.min start (Z.of_nat (length l)).
Proof.
  intros Hs Hn. unfold Arr.slice.
  destruct (Z.ltb_spec start 0) as [? | _]; [lia |].
  destruct (Z.ltb_spec (start + n) 0) as [? | _]; [lia |].
  rewrite length_take, length_drop. lia.
Qed.

(** [Math.ceil(n / 20)] is the least count of pages of 20 that hold [n]. *)
Lemma Math_ceil_div_itemsPerPage (n : Z) :
  let pages := Math_ceil_div n itemsPerPage in
  20 * (pages - 1) < n <= 20 * pages.
Proof.
  unfold Math_ceil_div, itemsPerPage, Qceiling, Qfloor. simpl.
  change (Z.pos (1 * 20)) with 20. rewrite Z.mul_1_r.
  Z.div_mod_to_equations. lia.
Qed.

(** ** The comparator *)

#[global] Instance Num_Eq_dec : RelDecision Num.Eq.
Proof.
  intros a b. destruct a as [| | x |], b as [| | y |]; simpl;
    try (left; exact I); try (right; tauto).
  apply Qeq_dec.
Defined.

#[global] Instance hasKey_dec f k r : Decision (hasKey f k r).
Proof. unfold hasKey. destruct (getField f r); apply _. Defined.

#[global] Instance numericKey_dec f r : Decision (numericKey f r).
Proof. unfold numericKey. destruct (getField f r); apply _. Defined.

Lemma Num_Le_refl (a : number) : Num.isNaN a = false -> Num.Le a a.
Proof. destruct a; simpl; try done. intros _. apply Qle_refl. Qed.

(** The comparator puts [a] strictly after [b] exactly when the two keys
    are numbers in the wrong order. *)
Lemma SortCompare_Gt (f : SortField) (o : SortOrder) (a b : CutoffData) :
  Arr.SortCompare (compareFn f o) a b = Gt
  <-> numericKey f a /\ numericKey f b /\ ~ inOrder f o a b.
Proof.
  unfold Arr.SortCompare, compareFn, numericKey, inOrder.
  destruct (getField f a) as [x |], (getField f b) as [y |]; simpl;
    try (split; [discriminate | tauto]).
  destruct (Num.isNaN x) eqn:Hx.
  { destruct x; try discriminate. destruct o; simpl; destruct y; simpl;
      split; try discriminate; intros (? & _); discriminate. }
  destruct (Num.isNaN y) eqn:Hy.
  { destruct y; try discriminate. destruct o, x; simpl;
      split; try discriminate; intros (_ & ? & _); discriminate. }
  destruct o.
  - pose proof (Num_sign_sub_Gt x y Hx Hy) as H.
    destruct (Num.sign (Num.sub x y)) as [c |] eqn:E.
    + rewrite <- H. split.
      * intros ->. done.
      * intros (_ & _ & [= ->]). done.
    + split; [discriminate |]. intros (_ & _ & Hn). apply H in Hn. discriminate.
  - pose proof (Num_sign_sub_Gt y x Hy Hx) as H.
    destruct (Num.sign (Num.sub y x)) as [c |] eqn:E.
    + rewrite <- H. split.
      * intros ->. done.
      * intros (_ & _ & [= ->]). done.
    + split; [discriminate |]. intros (_ & _ & Hn). apply H in Hn. discriminate.
Qed.

#[global] Instance inOrder_dec f o a b : Decision (inOrder f o a b).
Proof. unfold inOrder. destruct o; apply _. Defined.

Lemma SortCompare_inOrder (f : SortField) (o : SortOrder) (a b : CutoffData) :
  numericKey f a -> numericKey f b ->
  (Arr.SortCompare (compareFn f o) a b <> Gt <-> inOrder f o a b).
Proof.
  intros Ha Hb. rewrite SortCompare_Gt.
  destruct (decide (inOrder f o a b)); tauto.
Qed.

Lemma numericKey_ToNumber (f : SortField) (r : CutoffData) :
  numericKey f r -> Num.isNaN (ToNumber (getField f r)) = false.
Proof. unfold numericKey. by destruct (getField f r). Qed.

Lemma inOrder_total (f : SortField) (o : SortOrder) (a b : CutoffData) :
  numericKey f a -> numericKey f b -> inOrder f o a b \/ inOrder f o b a.
Proof.
  intros Ha%numericKey_ToNumber Hb%numericKey_ToNumber.
  unfold inOrder. destruct o.
  - by apply Num_Le_total.
  - destruct (Num_Le_total _ _ Ha Hb); auto.
Qed.

Lemma inOrder_trans (f : SortField) (o : SortOrder) (a b c : CutoffData) :
  inOrder f o a b -> inOrder f o b c -> inOrder f o a c.
Proof.
  unfold inOrder. destruct o; intros H1 H2; eapply Num_Le_trans; eauto.
Qed.


(** With numeric keys the sort stage is the only stable sort: any
    arrangement of the rows that is in order and keeps the rows of equal
    key in their order is the list it computes. *)
Lemma sortStage_unique (f : SortField) (o : SortOrder) (l l' : list CutoffData) :
  Forall (numericKey f) l -> l' ≡ₚ l -> StronglySorted (inOrder f o) l' ->
  (forall x, numericKey f x ->
     filter (fun y => inOrder f o x y /\ inOrder f o y x) l'
     = filter (fun y => inOrder f o x y /\ inOrder f o y x) l) ->
  l' = sortStage f o l.
Proof.
  apply sort_unique with (Q := numericKey f).
  - intros x y. apply SortCompare_inOrder.
  - intros x y. apply inOrder_total.
  - intros x y z _ _ _. apply inOrder_trans.
Qed.

(** *** The order on one field *)

#[global] Instance isNumber_dec v : Decision (isNumber v).
Proof. destruct v; simpl; apply _. Defined.

#[global] Instance ordered_dec key o a b : Decision (ordered key o a b).
Proof. unfold ordered. destruct (key a), (key b), o; apply _. Defined.

#[global] Instance keyed_dec key k r : Decision (keyed key k r).
Proof. unfold keyed. destruct (key r); apply _. Defined.






(** ** In-place sort *)

(** [sort] writes to the array it is given. *)
Lemma Array_sort_in_place (h : Heap) (a : loc)
    (f : CutoffData -> CutoffData -> number) :
  (Array_sort a f h).1 = a
  /\ (Array_sort a f h).2 !! a = Some (Arr.sort f (contents h a)).
Proof.
  unfold Array_sort, bind, read, write, ret. simpl.
  split; [done | apply lookup_insert_eq].
Qed.

(** ** The page number *)

Lemma handleSort_page (field : SortField) (st : State) :
  currentPage (handleSort field st) = 1.
Proof. unfold handleSort. by destruct (SortField_eqb field (sortField st)). Qed.

Lemma clearFilters_page (st : State) : currentPage (clearFilters st) = 1.
Proof. done. Qed.

(** The three [onChange] handlers write one filter cell and nothing else. *)
Lemma edit_page (pages : Z) (v : string) (st : State) :
  currentPage (handle pages (EditRank v) st) = currentPage st
  /\ currentPage (handle pages (EditPercentile v) st) = currentPage st
  /\ currentPage (handle pages (EditSearch v) st) = currentPage st.
Proof. done. Qed.

(** ** The data source adapter *)

Section AdapterFacts.
Import Adapter.
Variable fetch : string -> option Response.
Variable JSON_parse : option JSON -> option JSON.

(** A proxy result is taken only when it is an array. *)
Lemma tryProxy_array (proxy : string) (v : JSON) :
  tryProxy fetch JSON_parse proxy = Some v -> Array_isArray v = true.
Proof.
  unfold tryProxy. intros H.
  repeat match type of H with
  | context [match ?x with _ => _ end] => destruct x eqn:?
  end; congruence.
Qed.

Lemma tryProxies_array (proxies : list string) (v : JSON) :
  tryProxies fetch JSON_parse proxies = Some v -> Array_isArray v = true.
Proof.
  induction proxies as [| p ps IH]; simpl; [done |].
  destruct (tryProxy fetch JSON_parse p) eqn:E; [| done].
  intros [= <-]. by eapply tryProxy_array.
Qed.

(** The sources are tried in order and the first one that is taken ends
    the load. *)
Lemma fetchData_first (s : LoadState) :
  fetchData fetch JSON_parse s
  = match tryServer fetch with
    | Some v => {| data := v; loading := false; error := error s |}
    | None =>
        match tryProxies fetch JSON_parse corsProxies with
        | Some v => {| data := v; loading := false; error := error s |}
        | None =>
            match tryDirect fetch with
            | Some v => {| data := v; loading := false; error := error s |}
            | None =>
                {| data := data s; loading := false;
                   error := Some "All data sources failed. Please try again later." |}
            end
        end
    end.
Proof.
  unfold fetchData.
  destruct (tryServer fetch); [done |].
  destruct (tryProxies fetch JSON_parse corsProxies); [done |].
  by destruct (tryDirect fetch).
Qed.
End AdapterFacts.

(** ** The end-to-end scenario *)

(** Three rows, of ranks 1, 2 and 50000; the rank field at 10 keeps the
    third; sorted by rank ascending, page 1 shows that row and there is
    one page. *)
Example end_to_end :
  let h : Heap :=
    {[ 1%positive := [row 1 99.9 "A" "x"; row 2 99.5 "B" "y";
                      row 50000 10 "C" "z"] ]} in
  (render (setRankFilter "10" (initialState 1%positive)) h).1
  = {| visible := [row 50000 10 "C" "z"]; totalMatches := 1; viewPages := 1 |}.
Proof. by vm_compute. Qed.

(** Without a filter the rows come out by ascending rank, and the array
    in the store keeps the order it was loaded in. *)
Example default_view :
  let h : Heap :=
    {[ 1%positive := [row 50000 10 "C" "z"; row 2 99.5 "B" "y";
                      row 1 99.9 "A" "x"] ]} in
  visible (render (initialState 1%positive) h).1
  = [row 1 99.9 "A" "x"; row 2 99.5 "B" "y"; row 50000 10 "C" "z"]
  /\ (render (initialState 1%positive) h).2 !! 1%positive = h !! 1%positive.
Proof. by vm_compute. Qed.

(** All sources failing gives the error message and leaves the data. *)
Example all_sources_fail :
  Adapter.fetchData (fun _ => None) sampleParse Adapter.initialLoadState
  = {| Adapter.data := Adapter.JArray [];
       Adapter.loading := false;
       Adapter.error := Some "All data sources failed. Please try again later." |}.
Proof. reflexivity. Qed.

(** The first proxy delivers the dataset in its envelope. *)
Example first_proxy_loads :
  Adapter.fetchData
    (fun url => if String.eqb url "/api/cutoffs" then None
                else objectFromServer url)
    sampleParse Adapter.initialLoadState
  = {| Adapter.data := sampleDataset; Adapter.loading := false;
       Adapter.error := None |}.
Proof. by vm_compute. Qed.

(** * The claims *)

(** C1. Threshold filter, inclusive OR.  The threshold stage keeps exactly
    the records that satisfy at least one of the thresholds that are set
    (percentile at most the percentile threshold, or rank at least the
    rank threshold), in their order; with no threshold set it keeps every
    record.  With the percentile field at 90 and the rank field at 1000, the
    record of rank 500 and percentile 95 is dropped and the record of
    rank 5000 and percentile 95 is kept.  In the array the component
    computes, a record of the dataset is present exactly when it passes
    this stage and the search stage. *)
Theorem threshold_filter_inclusive_or :
  (forall (rankFilter percentileFilter : string) (l : list CutoffData),
     thresholdStage rankFilter percentileFilter l
     = filter (fun r =>
         (rankThreshold rankFilter = None
          /\ percentileThreshold percentileFilter = None)
         \/ meetsPercentile (percentileThreshold percentileFilter) r
         \/ meetsRank (rankThreshold rankFilter) r) l)
  /\ (forall l : list CutoffData, thresholdStage "" "" l = l)
  /\ rankThreshold "1000" = Some (Num.ofZ 1000)
  /\ percentileThreshold "90" = Some (Num.ofZ 90)
  /\ thresholdStage "1000" "90"
       [row 500 95 "A" "B"; row 5000 95 "A" "B"] = [row 5000 95 "A" "B"]
  /\ (forall (st : State) (h : Heap) (r : CutoffData),
        let fs := filteredAndSortedData st h in
        r ∈ contents fs.2 fs.1
        <-> r ∈ contents h (data st)
            /\ passesThreshold (rankThreshold (rankFilter st))
                 (percentileThreshold (percentileFilter st)) r
            /\ passesSearch (searchFilter st) r).
Proof.
  split_and!; try done.
  - intros. apply thresholdStage_spec.
  - intros st h r fs.
    pose proof (filteredAndSortedData_run st h) as (_ & _ & Hl).
    subst fs. rewrite (contents_Some _ _ _ Hl).
    unfold pipeline, sortStage.
    rewrite sort_Permutation, searchStage_spec, thresholdStage_spec.
    rewrite !list_elem_of_filter. tauto.
Qed.

(** C2. [totalMatches], the length of the filtered and sorted array, is the
    number of records of the dataset that pass the threshold stage and the
    search stage: the two stages compose as a conjunction, while the two
    thresholds of the first stage compose as a disjunction. *)
Theorem totalMatches_counts_both_stages (st : State) (h : Heap) :
  totalMatches (render st h).1
  = Z.of_nat (length (filter (fun r =>
      ((rankThreshold (rankFilter st) = None
        /\ percentileThreshold (percentileFilter st) = None)
       \/ meetsPercentile (percentileThreshold (percentileFilter st)) r
       \/ meetsRank (rankThreshold (rankFilter st)) r)
      /\ passesSearch (searchFilter st) r) (contents h (data st)))).
Proof.
  destruct (render_run st h) as [-> _]. unfold view, pipeline, sortStage.
  simpl. rewrite sort_length, searchStage_spec, thresholdStage_spec.
  rewrite list_filter_filter. do 2 f_equal.
  apply list_filter_iff. intros r. unfold passesThreshold. tauto.
Qed.

(** C3. Pagination.  For a page number [p >= 1], [visible] is the slice of
    the filtered array from index [(p-1)*20] up to, not including, [p*20]
    (element [i] of [visible] is element [(p-1)*20 + i] of the filtered
    array for [i < 20], and there is no other element); [totalPages] is
    the ceiling of [totalMatches / 20], which is 0 when nothing matches;
    the page number is not clamped: past the last page [visible] is empty.
    With 41 matches there are 3 pages, page 3 has one record and page 4 has
    none. *)
Theorem pagination_slices_without_clamping (st : State) (h : Heap) :
  1 <= currentPage st ->
  let fs := filteredAndSortedData st h in
  let filtered := contents fs.2 fs.1 in
  let v := (render st h).1 in
  totalMatches v = Z.of_nat (length filtered)
  /\ (forall i : nat,
        visible v !! i
        = if decide (i < 20)%nat
          then filtered !! (Z.to_nat ((currentPage st - 1) * 20) + i)%nat
          else None)
  /\ 20 * (viewPages v - 1) < totalMatches v <= 20 * viewPages v
  /\ (totalMatches v = 0 -> viewPages v = 0)
  /\ (viewPages v < currentPage st -> visible v = [])
  /\ (totalMatches v = 41 ->
      viewPages v = 3
      /\ (currentPage st = 3 -> length (visible v) = 1%nat)
      /\ (currentPage st = 4 -> visible v = [])).
Proof.
  intros Hp fs filtered v.
  pose proof (filteredAndSortedData_run st h) as (_ & _ & Hl).
  assert (Hf : filtered = pipeline st (contents h (data st))).
  { subst filtered fs. by apply contents_Some. }
  assert (Hv : v = view st (contents h (data st))).
  { subst v. by destruct (render_run st h). }
  clearbody filtered v. clear Hl fs. subst v. unfold view. simpl.
  rewrite <- Hf. clear Hf.
  pose proof (Math_ceil_div_itemsPerPage (Z.of_nat (length filtered))) as Hc.
  simpl in Hc.
  set (pages := Math_ceil_div (Z.of_nat (length filtered)) itemsPerPage) in *.
  assert (Hlen : Z.of_nat (length (Arr.slice filtered
                   ((currentPage st - 1) * itemsPerPage)
                   ((currentPage st - 1) * itemsPerPage + itemsPerPage)))
                 = Z.min ((currentPage st - 1) * 20 + 20)
                     (Z.of_nat (length filtered))
                   - Z.min ((currentPage st - 1) * 20)
                       (Z.of_nat (length filtered))).
  { apply slice_length; unfold itemsPerPage; lia. }
  split_and!.
  - done.
  - intros i. rewrite slice_lookup by (unfold itemsPerPage; lia).
    unfold itemsPerPage.
    destruct (decide (Z.of_nat i < 20)), (decide (i < 20)%nat); try lia; done.
  - lia.
  - lia.
  - lia.
  - intros Hlt. apply length_zero_iff_nil. lia.
  - intros H41. split_and!; [lia | lia |].
    intros H4. apply length_zero_iff_nil. lia.
Qed.

Lemma pagination_witness :
  let h : Heap := {[ 1%positive := rows 41 ]} in
  let st := setCurrentPage (fun _ => 3) (initialState 1%positive) in
  viewPages (render st h).1 = 3 /\ length (visible (render st h).1) = 1%nat.
Proof.
  intros h st.
  destruct (pagination_slices_without_clamping st h ltac:(simpl; lia))
    as (H1 & _ & _ & _ & _ & H41).
  destruct H41 as (Hp & H3 & _); [by rewrite H1 | auto].
Defined.

(** C4, at the failing input.  With 21 rows loaded the user goes to page 2
    and then types 21 in the rank field.  [handleSort] and [clearFilters]
    set the page to 1, the [onChange] handler of the field does not: the
    page stays 2, so the one matching row is not shown ("Showing 0 of 1
    results"), and with a single page left the pagination buttons are
    gone. *)
Theorem filter_edit_keeps_page :
  let h : Heap := {[ 1%positive := rows 21 ]} in
  exists (st : State) (h' : Heap),
    play [ClickNext; EditRank "21"] (initialState 1%positive) h = Some (st, h')
    /\ currentPage st = 2
    /\ (render st h').1
       = {| visible := [];
            totalMatches := 1;
            viewPages := 1 |}
    /\ enabled 1 st ClickPrevious = false
    /\ enabled 1 st ClickNext = false
    /\ (forall (field : SortField) (s : State),
          currentPage (handleSort field s) = 1)
    /\ (forall s : State, currentPage (clearFilters s) = 1)
    /\ (forall (pages : Z) (v : string) (s : State),
          currentPage (handle pages (EditRank v) s) = currentPage s
          /\ currentPage (handle pages (EditPercentile v) s) = currentPage s
          /\ currentPage (handle pages (EditSearch v) s) = currentPage s).
Proof.
  intros h.
  destruct (play [ClickNext; EditRank "21"] (initialState 1%positive) h)
    as [[st h'] |] eqn:E; [| by vm_compute in E].
  exists st, h'. split; [done |].
  vm_compute in E. injection E as <- <-.
  split_and!; first
    [ by vm_compute | apply handleSort_page | apply edit_page ].
Qed.

(** C5, at the failing input.  The local endpoint answers with status 200
    and a JSON object.  The proxy loop accepts a payload only when
    [Array.isArray] holds for it; the first [try] block has no such test,
    so [fetchData] stores the object as the dataset, reports no error and
    never asks the next sources, which would have delivered an array. *)
Theorem fetchData_accepts_non_array :
  let s := Adapter.fetchData objectFromServer sampleParse
             Adapter.initialLoadState in
  Adapter.data s = Adapter.JObject [("error", Adapter.JString "upstream")]
  /\ Adapter.Array_isArray (Adapter.data s) = false
  /\ Adapter.error s = None
  /\ Adapter.loading s = false
  /\ Adapter.tryProxies objectFromServer sampleParse Adapter.corsProxies
     = Some sampleDataset
  /\ Adapter.tryDirect objectFromServer = Some sampleDataset
  /\ (forall fetch JSON_parse proxies v,
        Adapter.tryProxies fetch JSON_parse proxies = Some v ->
        Adapter.Array_isArray v = true).
Proof.
  split_and!; try by vm_compute.
  intros fetch JSON_parse proxies v. apply tryProxies_array.
Qed.





(** C8. The pipeline is deterministic and depends on its four inputs only:
    two renders with the same elements in the dataset and the same filter,
    sort and page inputs show the same rows, the same number of matches and
    the same number of pages, whatever else the two stores hold; and a
    second render after the first shows the same again. *)
Theorem render_deterministic (st1 st2 : State) (h1 h2 : Heap) :
  is_Some (h1 !! data st1) ->
  contents h1 (data st1) = contents h2 (data st2) ->
  sameCriteria st1 st2 ->
  (render st1 h1).1 = (render st2 h2).1
  /\ (render st1 (render st1 h1).2).1 = (render st1 h1).1.
Proof.
  intros [l Hl] Hdata (Hr & Hp & Hs & Hf & Ho & Hc).
  destruct (render_run st1 h1) as [-> Hsub].
  destruct (render_run st2 h2) as [-> _].
  destruct (render_run st1 (render st1 h1).2) as [-> _].
  split.
  - unfold view, pipeline. by rewrite Hdata, Hr, Hp, Hs, Hf, Ho, Hc.
  - f_equal. rewrite (contents_Some _ _ _ Hl).
    apply contents_Some. by eapply lookup_weaken.
Qed.

Lemma render_deterministic_witness :
  let h1 : Heap := {[ 1%positive := rows 3 ]} in
  let h2 : Heap := {[ 1%positive := rows 7; 5%positive := rows 3 ]} in
  let st1 := setSearchFilter "course" (initialState 1%positive) in
  let st2 := setSearchFilter "course" (initialState 5%positive) in
  (render st1 h1).1 = (render st2 h2).1
  /\ (render st1 (render st1 h1).2).1 = (render st1 h1).1.
Proof.
  intros h1 h2 st1 st2.
  apply (render_deterministic st1 st2 h1 h2).
  - by eexists.
  - reflexivity.
  - by repeat split.
Defined.

(** C9. The pipeline never writes to its input: every array that is in the
    store before a render, the loaded dataset among them, holds the same
    records in the same order after it.  The sort works on an array the
    render has allocated itself. *)
Theorem render_preserves_store (st : State) (h : Heap) (a : loc)
    (l : list CutoffData) :
  h !! a = Some l ->
  (filteredAndSortedData st h).2 !! a = Some l
  /\ (render st h).2 !! a = Some l
  /\ (filteredAndSortedData st h).1 <> a.
Proof.
  intros Hl.
  pose proof (filteredAndSortedData_run st h) as (Hsub & Hnew & _).
  destruct (render_run st h) as [_ Hsub'].
  split_and!.
  - by eapply lookup_weaken.
  - by eapply lookup_weaken.
  - intros Heq. rewrite Heq in Hnew. congruence.
Qed.

Lemma render_preserves_store_witness :
  let h : Heap := {[ 1%positive := [row 3 50 "a" "x"; row 1 60 "b" "x"] ]} in
  let st := initialState 1%positive in
  (filteredAndSortedData st h).2 !! 1%positive
    = Some [row 3 50 "a" "x"; row 1 60 "b" "x"]
  /\ (render st h).2 !! 1%positive = Some [row 3 50 "a" "x"; row 1 60 "b" "x"]
  /\ (filteredAndSortedData st h).1 <> 1%positive.
Proof.
  intros h st.
  apply (render_preserves_store st h 1%positive).
  reflexivity.
Defined.

(** C10. A threshold field that is not empty and does not parse to a number,
    with the other threshold field empty, excludes every record: the
    threshold stage returns no record and [totalMatches] is 0.  This holds
    for the rank field ([parseInt] gives NaN) and for the percentile field
    ([parseFloat] gives NaN). *)
Theorem unparsable_threshold_excludes_all (st : State) (h : Heap) :
  (rankFilter st <> "" /\ Parse.parseInt (rankFilter st) = Num.NaN
   /\ percentileFilter st = "")
  \/ (percentileFilter st <> "" /\ Parse.parseFloat (percentileFilter st) = Num.NaN
      /\ rankFilter st = "") ->
  thresholdStage (rankFilter st) (percentileFilter st) (contents h (data st)) = []
  /\ totalMatches (render st h).1 = 0
  /\ visible (render st h).1 = [].
Proof.
  intros H.
  assert (Hnone : thresholdStage (rankFilter st) (percentileFilter st)
                    (contents h (data st)) = []).
  { rewrite thresholdStage_spec. apply filter_none, Forall_forall.
    intros r _. unfold passesThreshold, rankThreshold, percentileThreshold.
    destruct H as [(Hne & Hnan & ->) | (Hne & Hnan & ->)];
      rewrite Hnan; repeat case_decide; try done; simpl;
      pose proof (Num_Le_NaN_l (ToNumber (Rank r)));
      pose proof (Num_Le_NaN_r (ToNumber (Percentile r)));
      intros [[? ?] | [? | ?]]; done. }
  destruct (render_run st h) as [-> _]. unfold view, pipeline.
  rewrite Hnone. unfold searchStage, sortStage, Arr.slice. simpl.
  destruct (Str.truthy (Str.trim (searchFilter st))); simpl;
    by rewrite drop_nil, take_nil.
Qed.

Lemma unparsable_threshold_witness :
  let h : Heap := {[ 1%positive := rows 5 ]} in
  let st := setRankFilter ".5" (initialState 1%positive) in
  thresholdStage (rankFilter st) (percentileFilter st) (contents h (data st)) = []
  /\ totalMatches (render st h).1 = 0
  /\ visible (render st h).1 = [].
Proof.
  intros h st.
  apply (unparsable_threshold_excludes_all st h).
  left. split_and!; [discriminate | reflexivity | reflexivity].
Defined.

(** * Further properties of the component *)

(** ** Renders *)

Lemma filteredRows_pipeline (st : State) (h : Heap) :
  filteredRows st h = pipeline st (contents h (data st)).
Proof.
  unfold filteredRows.
  pose proof (filteredAndSortedData_run st h) as (_ & _ & Hl).
  by apply contents_Some.
Qed.

Lemma render_view (st : State) (h : Heap) :
  (render st h).1 = view st (contents h (data st)).
Proof. by destruct (render_run st h). Qed.

Lemma pipeline_Permutation (st : State) (l : list CutoffData) :
  pipeline st l
  ≡ₚ filter (fun r =>
       passesThreshold (rankThreshold (rankFilter st))
         (percentileThreshold (percentileFilter st)) r
       /\ passesSearch (searchFilter st) r) l.
Proof.
  unfold pipeline, sortStage.
  rewrite sort_Permutation, searchStage_spec, thresholdStage_spec.
  rewrite list_filter_filter.
  erewrite list_filter_iff; [done |]. intros r. simpl. tauto.
Qed.

(** The number of matches does not depend on the sort or on the page. *)
Lemma pipeline_length (st1 st2 : State) (l : list CutoffData) :
  rankFilter st1 = rankFilter st2 ->
  percentileFilter st1 = percentileFilter st2 ->
  searchFilter st1 = searchFilter st2 ->
  length (pipeline st1 l) = length (pipeline st2 l).
Proof.
  intros Hr Hp Hs. unfold pipeline, sortStage.
  by rewrite !sort_length, Hr, Hp, Hs.
Qed.

Lemma slice_take_drop {A : Type} (l : list A) (start n : Z) :
  0 <= start -> 0 <= n ->
  Arr.slice l start (start + n) = take (Z.to_nat n) (drop (Z.to_nat start) l).
Proof.
  intros Hs Hn. apply list_eq. intros i.
  rewrite slice_lookup by done.
  destruct (decide (Z.of_nat i < n)) as [Hi | Hi].
  - rewrite lookup_take_lt by lia. by rewrite lookup_drop.
  - by rewrite lookup_take_ge by lia.
Qed.

(** Consecutive pages of 20 make up the start of the list. *)
Lemma concat_pages {A : Type} (l : list A) (n : nat) :
  concat (map (fun p : Z =>
            Arr.slice l ((p - 1) * itemsPerPage)
              ((p - 1) * itemsPerPage + itemsPerPage))
          (seqZ 1 (Z.of_nat n)))
  = take (20 * n) l.
Proof.
  induction n as [| n IH]; [done |].
  rewrite seqZ_S, map_app, concat_app, IH. simpl.
  rewrite app_nil_r, slice_take_drop by (unfold itemsPerPage; lia).
  unfold itemsPerPage.
  replace (Z.to_nat ((1 + Z.of_nat n - 1) * 20)) with (20 * n)%nat by lia.
  replace (Z.to_nat 20) with 20%nat by lia.
  rewrite take_take_drop. f_equal. lia.
Qed.

(** X1. Pagination loses nothing and repeats nothing: the pages 1 to
    [totalPages] of a render, one after the other, are the filtered and
    sorted array. *)
Theorem pages_make_up_the_matches (st : State) (h : Heap) :
  concat (map (fun p : Z =>
            visible (render (setCurrentPage (fun _ => p) st) h).1)
          (seqZ 1 (viewPages (render st h).1)))
  = filteredRows st h.
Proof.
  rewrite filteredRows_pipeline, render_view. unfold view at 1.
  cbn [viewPages].
  set (l := pipeline st (contents h (data st))).
  pose proof (Math_ceil_div_itemsPerPage (Z.of_nat (length l))) as Hc.
  simpl in Hc.
  set (pages := Math_ceil_div (Z.of_nat (length l)) itemsPerPage) in *.
  assert (Hpos : 0 <= pages) by lia.
  erewrite map_ext.
  2: { intros p. rewrite render_view. unfold view. cbn [visible].
       change (pipeline (setCurrentPage (fun _ => p) st)
                 (contents h (data (setCurrentPage (fun _ => p) st))))
         with l.
       change (currentPage (setCurrentPage (fun _ => p) st)) with p.
       reflexivity. }
  rewrite <- (Z2Nat.id pages Hpos), concat_pages.
  apply take_ge. lia.
Qed.

Lemma visible_is_a_segment_aux (st : State) (h : Heap) :
  exists before after : list CutoffData,
    filteredRows st h = (before ++ visible (render st h).1 ++ after)%list.
Proof.
  rewrite filteredRows_pipeline, render_view. unfold view. cbn [visible].
  unfold Arr.slice.
  eexists (take _ _), (drop _ (drop _ _)).
  by rewrite take_drop, take_drop.
Qed.

(** X2. Whatever the page number is, also zero or negative, a render shows
    at most 20 rows, never more than there are matches, and the rows it
    shows stand next to each other, in the same order, in the filtered and
    sorted array. *)
Theorem visible_is_a_segment (st : State) (h : Heap) :
  (length (visible (render st h).1) <= 20)%nat
  /\ Z.of_nat (length (visible (render st h).1)) <= totalMatches (render st h).1
  /\ exists before after : list CutoffData,
       filteredRows st h = (before ++ visible (render st h).1 ++ after)%list.
Proof.
  rewrite filteredRows_pipeline, render_view. unfold view.
  cbn [visible totalMatches].
  set (l := pipeline st (contents h (data st))).
  unfold Arr.slice, itemsPerPage.
  set (s := (currentPage st - 1) * 20).
  set (k := if s <? 0 then Z.max (Z.of_nat (length l) + s) 0
            else Z.min s (Z.of_nat (length l))).
  set (e := if s + 20 <? 0 then Z.max (Z.of_nat (length l) + (s + 20)) 0
            else Z.min (s + 20) (Z.of_nat (length l))).
  assert (Hcount : Z.max (e - k) 0 <= 20 /\ 0 <= k).
  { subst k e. destruct (Z.ltb_spec s 0), (Z.ltb_spec (s + 20) 0); lia. }
  split_and!.
  - rewrite length_take. lia.
  - rewrite length_take, length_drop. lia.
  - exists (take (Z.to_nat k) l),
           (drop (Z.to_nat (Z.max (e - k) 0)) (drop (Z.to_nat k) l)).
    by rewrite take_drop, take_drop.
Qed.

(** ** Sessions *)

Lemma handle_data (pages : Z) (a : Action) (st : State) :
  data (handle pages a st) = data st.
Proof.
  destruct a; try done. simpl. unfold handleSort.
  by destruct (SortField_eqb field (sortField st)).
Qed.

(** Every action but a filter edit leaves the filters as they are, or
    clears them and goes to page 1. *)
Lemma handle_filters (pages : Z) (a : Action) (st : State) :
  isEdit a = false ->
  (rankFilter (handle pages a st) = rankFilter st
   /\ percentileFilter (handle pages a st) = percentileFilter st
   /\ searchFilter (handle pages a st) = searchFilter st)
  \/ currentPage (handle pages a st) = 1.
Proof.
  destruct a; try done; intros _; simpl; auto.
Qed.

Lemma viewPages_view (st1 st2 : State) (l : list CutoffData) :
  rankFilter st1 = rankFilter st2 ->
  percentileFilter st1 = percentileFilter st2 ->
  searchFilter st1 = searchFilter st2 ->
  viewPages (view st1 l) = viewPages (view st2 l).
Proof.
  intros Hr Hp Hs. unfold view. cbn [viewPages].
  by rewrite (pipeline_length st1 st2 l).
Qed.

Lemma viewPages_nonneg (st : State) (l : list CutoffData) :
  0 <= viewPages (view st l).
Proof.
  unfold view. cbn [viewPages].
  pose proof (Math_ceil_div_itemsPerPage (Z.of_nat (length (pipeline st l)))).
  simpl in *. lia.
Qed.

(** X3. In every session the page number stays at 1 or above: no sequence
    of edits, sort clicks, Clear All, Previous and Next brings it below
    the first page. *)
Theorem page_never_below_first (actions : list Action) (st st' : State)
    (h h' : Heap) :
  1 <= currentPage st ->
  play actions st h = Some (st', h') ->
  1 <= currentPage st'.
Proof.
  revert st h. induction actions as [| a rest IH]; intros st h Hp Hplay.
  - by injection Hplay as <- _.
  - simpl in Hplay. destruct (render st h) as [v h1] eqn:Hr.
    destruct (enabled (viewPages v) st a) eqn:Hen; [| done].
    apply (IH (handle (viewPages v) a st) h1); [| done]. clear Hplay IH.
    destruct a; simpl in *; try done; try lia.
Qed.

Lemma page_never_below_first_witness :
  let h : Heap := {[ 1%positive := rows 41 ]} in
  match play [ClickNext; EditRank "3"; ClickPrevious]
          (initialState 1%positive) h with
  | Some (st', _) => 1 <= currentPage st'
  | None => False
  end.
Proof.
  intros h.
  destruct (play [ClickNext; EditRank "3"; ClickPrevious]
              (initialState 1%positive) h) as [[st' h'] |] eqn:E;
    [| by vm_compute in E].
  apply (page_never_below_first [ClickNext; EditRank "3"; ClickPrevious]
           (initialState 1%positive) st' h h');
    [simpl; lia | exact E].
Defined.

(** X4. Without filter edits the page stays a page that exists: from a
    state whose page number is between 1 and [totalPages] (1 when nothing
    matches), any session of sort clicks, Clear All, Previous and Next
    ends on such a page again, so the table shows rows whenever there are
    matches. *)
Theorem page_stays_valid_without_edits (actions : list Action)
    (st st' : State) (h h' : Heap) :
  is_Some (h !! data st) ->
  validPage st h ->
  forallb (fun a => negb (isEdit a)) actions = true ->
  play actions st h = Some (st', h') ->
  validPage st' h'
  /\ (0 < totalMatches (render st' h').1 -> visible (render st' h').1 <> []).
Proof.
  revert st h. induction actions as [| a rest IH];
    intros st h Hdata Hvalid Hno Hplay.
  - injection Hplay as <- <-. split; [done |].
    unfold validPage in Hvalid. rewrite render_view in *.
    unfold view in *. cbn [viewPages totalMatches visible] in *.
    set (l := pipeline st (contents h (data st))) in *.
    pose proof (Math_ceil_div_itemsPerPage (Z.of_nat (length l))) as Hc.
    simpl in Hc. intros Hpos Hnil.
    apply (f_equal length) in Hnil. apply (f_equal Z.of_nat) in Hnil.
    rewrite slice_length in Hnil by (unfold itemsPerPage; lia).
    unfold itemsPerPage in *. simpl in Hnil. lia.
  - simpl in Hplay, Hno. apply andb_true_iff in Hno as [Ha Hno].
    apply negb_true_iff in Ha.
    pose proof (render_run st h) as [Hv Hsub].
    destruct (render st h) as [v h1] eqn:Hr. cbn [fst snd] in *.
    destruct (enabled (viewPages v) st a) eqn:Hen; [| done].
    apply (IH (handle (viewPages v) a st) h1); [| | done | done].
    + rewrite handle_data. destruct Hdata as [l Hl].
      exists l. by eapply lookup_weaken.
    + clear IH Hplay Hno.
      assert (Hcont : contents h1 (data (handle (viewPages v) a st))
                      = contents h (data st)).
      { rewrite handle_data. destruct Hdata as [l Hl].
        rewrite (contents_Some _ _ _ Hl). apply contents_Some.
        by eapply lookup_weaken. }
      unfold validPage in *. rewrite Hr in Hvalid. cbn [fst] in Hvalid.
      rewrite render_view, Hcont. subst v.
      pose proof (viewPages_nonneg (handle (viewPages (view st (contents h (data st)))) a st)
                    (contents h (data st))) as Hnn.
      destruct (handle_filters (viewPages (view st (contents h (data st)))) a st Ha)
        as [(Hrf & Hpf & Hsf) | Hone]; [| lia].
      rewrite (viewPages_view _ st _ Hrf Hpf Hsf) in *.
      destruct a; try done; simpl in *; try lia.
Qed.

Lemma page_stays_valid_witness :
  let h : Heap := {[ 1%positive := rows 41 ]} in
  match play [ClickNext; ClickNext; ClickSort FPercentile; ClickNext]
          (initialState 1%positive) h with
  | Some (st', h') => validPage st' h'
  | None => False
  end.
Proof.
  intros h.
  destruct (play [ClickNext; ClickNext; ClickSort FPercentile; ClickNext]
              (initialState 1%positive) h) as [[st' h'] |] eqn:E;
    [| by vm_compute in E].
  apply (page_stays_valid_without_edits
           [ClickNext; ClickNext; ClickSort FPercentile; ClickNext]
           (initialState 1%positive) st' h h');
    [by eexists | clear E; by vm_compute | done | exact E].
Defined.

(** ** Sort clicks and Clear All *)

Lemma handleSort_keeps (field : SortField) (st : State) :
  data (handleSort field st) = data st
  /\ rankFilter (handleSort field st) = rankFilter st
  /\ percentileFilter (handleSort field st) = percentileFilter st
  /\ searchFilter (handleSort field st) = searchFilter st.
Proof.
  unfold handleSort. by destruct (SortField_eqb field (sortField st)).
Qed.

(** X5. A click on a sort header changes the order of the rows only: the
    matches are the same rows (so [totalMatches] and [totalPages] stay),
    the filters and the dataset are untouched, the clicked column becomes
    the sort field and the page is 1.  Once a column is the sort field,
    each further click on it flips the order, so two more clicks give the
    same state again. *)
Theorem sort_click_keeps_matches (field : SortField) (st : State) (h : Heap) :
  let st' := handleSort field st in
  filteredRows st' h ≡ₚ filteredRows st h
  /\ totalMatches (render st' h).1 = totalMatches (render st h).1
  /\ viewPages (render st' h).1 = viewPages (render st h).1
  /\ (data st', rankFilter st', percentileFilter st', searchFilter st')
     = (data st, rankFilter st, percentileFilter st, searchFilter st)
  /\ sortField st' = field
  /\ currentPage st' = 1
  /\ sortOrder (handleSort field st') <> sortOrder st'
  /\ handleSort field (handleSort field st') = st'.
Proof.
  intros st'.
  destruct (handleSort_keeps field st) as (Hd & Hr & Hp & Hs).
  fold st' in Hd, Hr, Hp, Hs.
  split_and!.
  - rewrite !filteredRows_pipeline, !pipeline_Permutation.
    by rewrite Hd, Hr, Hp, Hs.
  - rewrite !render_view. unfold view. cbn [totalMatches].
    by rewrite Hd, (pipeline_length st' st).
  - rewrite !render_view, Hd. by apply viewPages_view.
  - by rewrite Hd, Hr, Hp, Hs.
  - subst st'. unfold handleSort.
    destruct (SortField_eqb field (sortField st)) eqn:E; [| done].
    simpl. by destruct field, (sortField st).
  - apply handleSort_page.
  - subst st'. unfold handleSort.
    destruct (SortField_eqb field (sortField st)) eqn:E; simpl.
    + rewrite E. simpl. by destruct (sortOrder st).
    + by destruct field.
  - subst st'. unfold handleSort.
    destruct (SortField_eqb field (sortField st)) eqn:E; simpl.
    + rewrite E. simpl. rewrite E. simpl.
      destruct st as [? ? ? ? ? [] ?]; done.
    + by destruct field.
Qed.

(** X6. Clear All empties the three filter fields and goes to page 1, and
    it keeps the sort: the next render matches every row of the dataset,
    in the order of the sort field and sort order that were selected.  The
    Clear All button is then gone, and clearing again changes nothing. *)
Theorem clear_shows_every_row (st : State) (h : Heap) :
  let st' := clearFilters st in
  filteredRows st' h
  = sortStage (sortField st) (sortOrder st) (contents h (data st))
  /\ filteredRows st' h ≡ₚ contents h (data st)
  /\ totalMatches (render st' h).1 = Z.of_nat (length (contents h (data st)))
  /\ (sortField st', sortOrder st', currentPage st')
     = (sortField st, sortOrder st, 1)
  /\ hasActiveFilters st' = false
  /\ (forall pages : Z, enabled pages st' ClickClearAll = false)
  /\ clearFilters st' = st'.
Proof.
  intros st'.
  assert (Hrows : filteredRows st' h
                  = sortStage (sortField st) (sortOrder st) (contents h (data st))).
  { by rewrite filteredRows_pipeline. }
  split_and!; try done.
  - rewrite Hrows. apply sort_Permutation.
  - rewrite render_view. unfold view. cbn [totalMatches].
    rewrite <- filteredRows_pipeline, Hrows. unfold sortStage.
    by rewrite sort_length.
Qed.

(** X7. When the rank and percentile fields are empty and the search text
    is empty or made of blanks, nothing is filtered: every row of the
    dataset is a match.  The Clear All button, however, is shown as soon as
    the search field holds any character, blanks included. *)
Theorem blank_search_filters_nothing (st : State) (h : Heap) :
  rankFilter st = "" -> percentileFilter st = "" ->
  Str.trim (searchFilter st) = "" ->
  filteredRows st h ≡ₚ contents h (data st)
  /\ totalMatches (render st h).1 = Z.of_nat (length (contents h (data st)))
  /\ hasActiveFilters st = Str.truthy (searchFilter st)
  /\ (forall pages : Z,
        enabled pages st ClickClearAll = Str.truthy (searchFilter st)).
Proof.
  intros Hr Hp Hs.
  assert (Hrows : filteredRows st h
                  = sortStage (sortField st) (sortOrder st) (contents h (data st))).
  { rewrite filteredRows_pipeline. unfold pipeline, searchStage, thresholdStage.
    by rewrite Hr, Hp, Hs. }
  split_and!.
  - rewrite Hrows. apply sort_Permutation.
  - rewrite render_view. unfold view. cbn [totalMatches].
    rewrite <- filteredRows_pipeline, Hrows. unfold sortStage.
    by rewrite sort_length.
  - unfold hasActiveFilters. by rewrite Hr, Hp.
  - intros pages. simpl. unfold hasActiveFilters. by rewrite Hr, Hp.
Qed.

Lemma blank_search_witness :
  let h : Heap := {[ 1%positive := rows 3 ]} in
  let st := setSearchFilter "  " (initialState 1%positive) in
  filteredRows st h ≡ₚ contents h (data st)
  /\ totalMatches (render st h).1 = Z.of_nat (length (contents h (data st)))
  /\ hasActiveFilters st = Str.truthy (searchFilter st)
  /\ (forall pages : Z,
        enabled pages st ClickClearAll = Str.truthy (searchFilter st)).
Proof.
  intros h st.
  apply (blank_search_filters_nothing st h); reflexivity.
Defined.

(** ** How the filters grow and shrink *)

Lemma filter_sublist_mono {A : Type} (P Q : A -> Prop)
    `{!forall x, Decision (P x)} `{!forall x, Decision (Q x)} (l : list A) :
  (forall x, P x -> Q x) -> filter P l `sublist_of` filter Q l.
Proof.
  intros HPQ. induction l as [| x l IH]; [done |].
  rewrite !filter_cons.
  destruct (decide (P x)) as [HP | HP], (decide (Q x)) as [HQ | HQ].
  - by apply sublist_skip.
  - by destruct HQ; apply HPQ.
  - by apply sublist_cons.
  - done.
Qed.

Lemma append_assoc_string (a b c : string) : (a ++ b) ++ c = a ++ (b ++ c).
Proof.
  induction a as [| x a IH]; [done |].
  change (String x ((a ++ b) ++ c) = String x (a ++ b ++ c)). by f_equal.
Qed.

Lemma ciSubstring_trans (a b c : string) :
  ciSubstring a b -> ciSubstring b c -> ciSubstring a c.
Proof.
  rewrite <- !includes_toLowerCase, !includes_spec.
  intros (p1 & q1 & H1) (p2 & q2 & H2).
  exists (p2 ++ p1), (q1 ++ q2).
  by rewrite H2, H1, !append_assoc_string.
Qed.

Lemma ciSubstring_empty (a : string) : ciSubstring a "" -> a = "".
Proof.
  intros (pre & mid & post & H & Hmid).
  destruct pre; [| done]. destruct mid; [| done].
  unfold sameIgnoringCase in Hmid. by destruct a.
Qed.

(** X8. With both thresholds set the filter is wider than with either one
    alone: every row that passes the rank threshold alone, or the
    percentile threshold alone, also passes the two together, in the same
    order, and the number of matches is at least that of each. *)
Theorem second_threshold_only_adds (rankFilter percentileFilter : string)
    (l : list CutoffData) :
  rankFilter <> "" -> percentileFilter <> "" ->
  thresholdStage rankFilter "" l
    `sublist_of` thresholdStage rankFilter percentileFilter l
  /\ thresholdStage "" percentileFilter l
       `sublist_of` thresholdStage rankFilter percentileFilter l
  /\ (length (thresholdStage rankFilter "" l)
      <= length (thresholdStage rankFilter percentileFilter l))%nat
  /\ (length (thresholdStage "" percentileFilter l)
      <= length (thresholdStage rankFilter percentileFilter l))%nat.
Proof.
  intros Hr Hp.
  assert (H1 : thresholdStage rankFilter "" l
                 `sublist_of` thresholdStage rankFilter percentileFilter l).
  { rewrite !thresholdStage_spec. apply filter_sublist_mono.
    unfold passesThreshold, rankThreshold, percentileThreshold.
    intros r. repeat case_decide; try done; simpl;
      intros [[? ?] | [? | ?]]; try done; auto. }
  assert (H2 : thresholdStage "" percentileFilter l
                 `sublist_of` thresholdStage rankFilter percentileFilter l).
  { rewrite !thresholdStage_spec. apply filter_sublist_mono.
    unfold passesThreshold, rankThreshold, percentileThreshold.
    intros r. repeat case_decide; try done; simpl;
      intros [[? ?] | [? | ?]]; try done; auto. }
  split_and!; try done; by apply sublist_length.
Qed.

Lemma second_threshold_witness :
  let l := [row 500 95 "A" "B"; row 5000 95 "A" "B"; row 700 80 "A" "B"] in
  thresholdStage "1000" "" l `sublist_of` thresholdStage "1000" "90" l
  /\ thresholdStage "" "90" l `sublist_of` thresholdStage "1000" "90" l
  /\ (length (thresholdStage "1000" "" l)
      <= length (thresholdStage "1000" "90" l))%nat
  /\ (length (thresholdStage "" "90" l)
      <= length (thresholdStage "1000" "90" l))%nat.
Proof.
  intros l. apply (second_threshold_only_adds "1000" "90" l); discriminate.
Defined.

(** X9. The threshold stage is monotone in the two numbers: a lower rank
    threshold, or a higher percentile threshold, keeps every row that was
    kept before, in the same order. *)
Theorem thresholds_are_monotone (l : list CutoffData) :
  (forall rf1 rf2 pf : string,
     Num.Le (Parse.parseInt rf1) (Parse.parseInt rf2) ->
     thresholdStage rf2 pf l `sublist_of` thresholdStage rf1 pf l)
  /\ (forall pf1 pf2 rf : string,
        Num.Le (Parse.parseFloat pf1) (Parse.parseFloat pf2) ->
        thresholdStage rf pf1 l `sublist_of` thresholdStage rf pf2 l).
Proof.
  split.
  - intros rf1 rf2 pf Hle.
    assert (rf1 <> "" /\ rf2 <> "") as [H1 H2].
    { split; intros ->;
        [exact (Num_Le_NaN_l _ Hle) | exact (Num_Le_NaN_r _ Hle)]. }
    rewrite !thresholdStage_spec. apply filter_sublist_mono.
    unfold passesThreshold, rankThreshold, percentileThreshold.
    intros r. repeat case_decide; try done; simpl;
      intros [[? ?] | [? | ?]]; try done; auto;
      right; right; by eapply Num_Le_trans.
  - intros pf1 pf2 rf Hle.
    assert (pf1 <> "" /\ pf2 <> "") as [H1 H2].
    { split; intros ->;
        [exact (Num_Le_NaN_l _ Hle) | exact (Num_Le_NaN_r _ Hle)]. }
    rewrite !thresholdStage_spec. apply filter_sublist_mono.
    unfold passesThreshold, rankThreshold, percentileThreshold.
    intros r. repeat case_decide; try done; simpl;
      intros [[? ?] | [? | ?]]; try done; auto;
      right; left; by eapply Num_Le_trans.
Qed.

Lemma thresholds_are_monotone_witness :
  let l := [row 500 95 "A" "B"; row 5000 95 "A" "B"; row 700 80 "A" "B"] in
  thresholdStage "1000" "" l `sublist_of` thresholdStage "600" "" l
  /\ thresholdStage "" "85.5" l `sublist_of` thresholdStage "" "99" l.
Proof.
  intros l. destruct (thresholds_are_monotone l) as [Hr Hp]. split.
  - apply Hr. by vm_compute.
  - apply Hp. by vm_compute.
Defined.

(** X10. Refining the search narrows the result, for search texts in
    ASCII: when the first search text, without the white space at its ends,
    occurs letter by letter up to the case of the letters A to Z in the
    second one, every row the second search keeps is kept by the first, in
    the same order.  The names of the rows can be any text. *)
Theorem refined_search_narrows (search1 search2 : string)
    (t1 t2 : list ascii) (l : list CutoffData) :
  asciiText search1 -> asciiText search2 ->
  trimmedText search1 t1 -> trimmedText search2 t2 ->
  occursIgnoringCase t1 (string_of_list_ascii t2) ->
  searchStage search2 l `sublist_of` searchStage search1 l.
Proof.
  intros Ha1 Ha2 Ht1 Ht2 Hocc.
  pose proof (trim_trimmedText _ _ Ha1 Ht1) as E1.
  pose proof (trim_trimmedText _ _ Ha2 Ht2) as E2.
  assert (Hpart : forall s t, asciiText s -> trimmedText s t ->
                    asciiText (string_of_list_ascii t)).
  { intros s t Hs (l0 & r0 & H & _). apply asciiText_string_of.
    unfold asciiText in Hs. rewrite H, !Forall_app in Hs. tauto. }
  assert (Hsub : ciSubstring (Str.trim search1) (Str.trim search2)).
  { rewrite E1, E2. apply ciSubstring_occurs; [by eauto.. |].
    by rewrite chars_string_of. }
  rewrite !searchStage_spec. apply filter_sublist_mono.
  intros r. unfold passesSearch.
  intros [H | [H | H]].
  - left. rewrite H in Hsub. by apply ciSubstring_empty.
  - right; left. by eapply ciSubstring_trans.
  - right; right. by eapply ciSubstring_trans.
Qed.

Lemma refined_search_witness :
  let l := [row 1 99 "Government College" "Civil"; row 2 98 "VJTI" "Computer";
            row 3 97 "College of Engineering" "Civil"] in
  searchStage " Government Coll" l `sublist_of` searchStage "COLL " l
  /\ searchStage " Government Coll" l = [row 1 99 "Government College" "Civil"]
  /\ searchStage "COLL " l
     = [row 1 99 "Government College" "Civil";
        row 3 97 "College of Engineering" "Civil"].
Proof.
  intros l. split; [| split; by vm_compute].
  apply (refined_search_narrows "COLL " " Government Coll"
           (chars "COLL") (chars "Government Coll") l).
  - apply (bool_decide_unpack _). by vm_compute.
  - apply (bool_decide_unpack _). by vm_compute.
  - exists [], (chars " "). split_and!; try done.
    + repeat constructor; by vm_compute.
    + intros c [= <-]. apply (bool_decide_unpack _). by vm_compute.
    + intros c [= <-]. apply (bool_decide_unpack _). by vm_compute.
  - exists (chars " "), []. split_and!; try done.
    + repeat constructor; by vm_compute.
    + intros c [= <-]. apply (bool_decide_unpack _). by vm_compute.
    + intros c [= <-]. apply (bool_decide_unpack _). by vm_compute.
  - apply (bool_decide_unpack _). by vm_compute.
Defined.

(** ** Sorting and filtering *)

Lemma StronglySorted_filter {A : Type} (R : A -> A -> Prop) (P : A -> Prop)
    `{!forall x, Decision (P x)} (l : list A) :
  StronglySorted R l -> StronglySorted R (filter P l).
Proof.
  induction 1 as [| x l Hs IH Hx]; [constructor |].
  rewrite filter_cons. destruct (decide (P x)); [| done].
  constructor; [done |].
  rewrite Forall_forall in Hx. apply Forall_forall.
  intros y [_ Hy]%list_elem_of_filter. by apply Hx.
Qed.

Lemma Forall_filter_keeps {A : Type} (Q P : A -> Prop)
    `{!forall x, Decision (P x)} (l : list A) :
  Forall Q l -> Forall Q (filter P l).
Proof.
  rewrite !Forall_forall. intros HQ x [_ Hx]%list_elem_of_filter. by apply HQ.
Qed.

(** With numeric keys, a filter commutes with the sort. *)
Lemma filter_sortStage (f : SortField) (o : SortOrder) (P : CutoffData -> Prop)
    `{!forall x, Decision (P x)} (l : list CutoffData) :
  Forall (numericKey f) l ->
  filter P (sortStage f o l) = sortStage f o (filter P l).
Proof.
  intros Hnum. apply sortStage_unique.
  - by apply Forall_filter_keeps.
  - unfold sortStage. by rewrite sort_Permutation.
  - apply StronglySorted_filter.
    apply sort_StronglySorted with (Q := numericKey f); [| | | done].
    + intros x y. apply SortCompare_inOrder.
    + intros x y. apply inOrder_total.
    + intros x y z _ _ _. apply inOrder_trans.
  - intros x Hx. rewrite !list_filter_filter. apply filter_sort.
    intros y z _ _ (Hy & _) (Hz & _). rewrite SortCompare_Gt.
    intros (_ & _ & Hn). apply Hn.
    destruct Hy as [Hxy Hyx], Hz as [Hxz Hzx]. by apply (inOrder_trans f o y x z).
Qed.

(** X11. When every sort key is a number, the order of the stages does not
    matter for the rows: sorting the whole dataset first and filtering
    afterwards gives the array that filtering first and sorting afterwards
    gives. *)
Theorem sort_commutes_with_filters (st : State) (l : list CutoffData) :
  Forall (numericKey (sortField st)) l ->
  pipeline st l
  = searchStage (searchFilter st)
      (thresholdStage (rankFilter st) (percentileFilter st)
         (sortStage (sortField st) (sortOrder st) l)).
Proof.
  intros Hnum. unfold pipeline.
  rewrite !searchStage_spec, !thresholdStage_spec.
  rewrite <- !filter_sortStage; [done | done |].
  by apply Forall_filter_keeps.
Qed.

Lemma sort_commutes_witness :
  let l := [row 3 50 "VJTI" "x"; row 1 60 "COEP" "x"; row 2 70 "vjti" "y"] in
  let st := setSearchFilter "vjti" (setRankFilter "2" (initialState 1%positive)) in
  pipeline st l
  = searchStage "vjti" (thresholdStage "2" "" (sortStage FRank asc l)).
Proof.
  intros l st. apply (sort_commutes_with_filters st l). repeat constructor.
Defined.

(** X12. Sorting again changes nothing: rows with numeric keys that are
    already in the selected order come out of the sort stage as they went
    in, and the sort stage applied to its own result returns it. *)
Theorem sort_is_idempotent (f : SortField) (o : SortOrder) (l : list CutoffData) :
  Forall (numericKey f) l ->
  (StronglySorted (inOrder f o) l -> sortStage f o l = l)
  /\ sortStage f o (sortStage f o l) = sortStage f o l.
Proof.
  intros Hnum.
  assert (Hfix : forall l', Forall (numericKey f) l' ->
            StronglySorted (inOrder f o) l' -> sortStage f o l' = l').
  { intros l' Hn Hs. symmetry. by apply sortStage_unique. }
  split; [by apply Hfix |].
  apply Hfix.
  - unfold sortStage. by rewrite sort_Permutation.
  - apply sort_StronglySorted with (Q := numericKey f); [| | | done].
    + intros x y. apply SortCompare_inOrder.
    + intros x y. apply inOrder_total.
    + intros x y z _ _ _. apply inOrder_trans.
Qed.

Lemma sort_is_idempotent_witness :
  let l := [row 3 50 "a" "x"; row 1 60 "b" "x"; row 3 70 "c" "x"] in
  sortStage FRank desc (sortStage FRank desc l) = sortStage FRank desc l.
Proof.
  intros l. apply (sort_is_idempotent FRank desc l). repeat constructor.
Defined.

(** ** Loading *)


Lemma proxy_url_differs (proxy : string) :
  In proxy Adapter.corsProxies ->
  proxy ++ Adapter.encodeURIComponent Adapter.dataUrl <> Adapter.dataUrl
  /\ proxy ++ Adapter.encodeURIComponent Adapter.dataUrl <> "/api/cutoffs".
Proof.
  intros [<- | [<- | [<- | []]]]; split; intros H; by vm_compute in H.
Qed.

(** X14. The sources are a priority chain.  When the local endpoint
    delivers, the outcome is the same on every network that answers
    [/api/cutoffs] alike; when the endpoint or a proxy delivers, the
    outcome does not depend on what the direct URL would answer. *)
Theorem earlier_source_wins
    (fetch1 fetch2 : string -> option Adapter.Response)
    (parse1 parse2 : option Adapter.JSON -> option Adapter.JSON)
    (s : Adapter.LoadState) :
  (fetch1 "/api/cutoffs" = fetch2 "/api/cutoffs" ->
   is_Some (Adapter.tryServer fetch1) ->
   Adapter.fetchData fetch1 parse1 s = Adapter.fetchData fetch2 parse2 s)
  /\ ((forall url, url <> Adapter.dataUrl -> fetch1 url = fetch2 url) ->
      is_Some (Adapter.tryServer fetch1)
      \/ is_Some (Adapter.tryProxies fetch1 parse1 Adapter.corsProxies) ->
      Adapter.fetchData fetch1 parse1 s = Adapter.fetchData fetch2 parse1 s).
Proof.
  split.
  - intros Hsame [v Hv]. rewrite !fetchData_first.
    assert (Hv2 : Adapter.tryServer fetch2 = Some v).
    { unfold Adapter.tryServer in *. by rewrite <- Hsame. }
    by rewrite Hv, Hv2.
  - intros Hsame Hsome. rewrite !fetchData_first.
    assert (Hserver : Adapter.tryServer fetch2 = Adapter.tryServer fetch1).
    { unfold Adapter.tryServer. by rewrite Hsame. }
    assert (Hproxy : forall proxy, In proxy Adapter.corsProxies ->
              Adapter.tryProxy fetch2 parse1 proxy
              = Adapter.tryProxy fetch1 parse1 proxy).
    { intros proxy Hin. unfold Adapter.tryProxy.
      rewrite Hsame; [done |]. by apply proxy_url_differs. }
    assert (Hproxies : Adapter.tryProxies fetch2 parse1 Adapter.corsProxies
                       = Adapter.tryProxies fetch1 parse1 Adapter.corsProxies).
    { unfold Adapter.corsProxies in *. simpl.
      rewrite !Hproxy; [done | simpl; auto..]. }
    rewrite Hserver, Hproxies.
    destruct (Adapter.tryServer fetch1); [done |].
    destruct (Adapter.tryProxies fetch1 parse1 Adapter.corsProxies); [done |].
    destruct Hsome as [[? ?] | [? ?]]; done.
Qed.

Lemma earlier_source_wins_witness :
  Adapter.fetchData objectFromServer sampleParse Adapter.initialLoadState
  = Adapter.fetchData
      (fun url => if String.eqb url "/api/cutoffs" then objectFromServer url
                  else None)
      (fun _ => None) Adapter.initialLoadState.
Proof.
  destruct (earlier_source_wins objectFromServer
              (fun url => if String.eqb url "/api/cutoffs"
                          then objectFromServer url else None)
              sampleParse (fun _ => None) Adapter.initialLoadState) as [H _].
  apply H; [reflexivity | by eexists].
Defined.

(** ** The endpoint *)





(** ** The earlier threshold filter *)

(** X18. The threshold callback of the earlier page filtered only when both
    fields held numbers other than zero, where it agrees with the present
    callback; with one of the two fields empty (or zero, or not a number)
    it kept every row, so a rank alone or a percentile alone filtered
    nothing. *)
Theorem earlier_threshold_needs_both (rankFilter percentileFilter : string)
    (item : CutoffData) :
  (rankFilter = "" \/ percentileFilter = "" ->
   thresholdCallback_earlier rankFilter percentileFilter item = true)
  /\ (numberTruthy (Parse.parseInt rankFilter) = false
      \/ numberTruthy (Parse.parseFloat percentileFilter) = false ->
      thresholdCallback_earlier rankFilter percentileFilter item = true)
  /\ (numberTruthy (Parse.parseInt rankFilter) = true ->
      numberTruthy (Parse.parseFloat percentileFilter) = true ->
      thresholdCallback_earlier rankFilter percentileFilter item
      = thresholdCallback rankFilter percentileFilter item).
Proof.
  unfold thresholdCallback_earlier, thresholdCallback.
  split_and!.
  - intros [-> | ->]; simpl; [by rewrite orb_true_r | done].
  - intros [H | H].
    + destruct (Str.truthy rankFilter); rewrite ?H; by rewrite orb_true_r.
    + destruct (Str.truthy percentileFilter); rewrite ?H; done.
  - intros Hr Hp.
    assert (Str.truthy rankFilter = true) as ->.
    { destruct rankFilter; [by vm_compute in Hr | done]. }
    assert (Str.truthy percentileFilter = true) as ->.
    { destruct percentileFilter; [by vm_compute in Hp | done]. }
    by rewrite Hr, Hp.
Qed.

Lemma earlier_threshold_witness :
  thresholdCallback_earlier "1000" "" (row 500 95 "A" "B") = true
  /\ thresholdCallback "1000" "" (row 500 95 "A" "B") = false
  /\ thresholdCallback_earlier "1000" "90" (row 500 95 "A" "B")
     = thresholdCallback "1000" "90" (row 500 95 "A" "B").
Proof.
  destruct (earlier_threshold_needs_both "1000" "" (row 500 95 "A" "B"))
    as (H1 & _ & _).
  destruct (earlier_threshold_needs_both "1000" "90" (row 500 95 "A" "B"))
    as (_ & _ & H3).
  split_and!; [by apply H1; right | reflexivity | by apply H3].
Defined.

(** ** Previous and Next *)

(** X19. Previous and Next undo each other on the pages that exist: from a
    page before the last, Next and then Previous gives the state back, and
    from a page after the first and not beyond the last, Previous and then
    Next does.  From a page beyond the last, Next lands on the last page. *)
Theorem previous_and_next_undo (pages : Z) (st : State) :
  (1 <= currentPage st < pages ->
   handle pages ClickPrevious (handle pages ClickNext st) = st)
  /\ (1 < currentPage st <= pages ->
      handle pages ClickNext (handle pages ClickPrevious st) = st)
  /\ (pages <= currentPage st ->
      currentPage (handle pages ClickNext st) = pages).
Proof.
  destruct st as [d rf pf sf f o p]. unfold handle, setCurrentPage. simpl.
  split_and!; intros Hp; try f_equal; lia.
Qed.

Lemma previous_and_next_witness :
  let st := setCurrentPage (fun _ => 2) (initialState 1%positive) in
  handle 3 ClickPrevious (handle 3 ClickNext st) = st
  /\ handle 3 ClickNext (handle 3 ClickPrevious st) = st
  /\ currentPage (handle 1 ClickNext st) = 1.
Proof.
  intros st.
  destruct (previous_and_next_undo 3 st) as (H1 & H2 & _).
  destruct (previous_and_next_undo 1 st) as (_ & _ & H3).
  split_and!; [apply H1 | apply H2 | apply H3]; simpl; lia.
Defined.

(** ** The table body *)

Lemma mapM_None_exists {A B : Type} (f : A -> option B) (l : list A) :
  mapM f l = None <-> exists x, x ∈ l /\ f x = None.
Proof.
  induction l as [| x l IH]; simpl.
  - split; [done |]. by intros (x & Hx%elem_of_nil & _).
  - destruct (f x) as [y |] eqn:E; simpl.
    + destruct (mapM f l) as [k |] eqn:Ek; simpl.
      * split; [done |]. intros (z & [-> | Hz]%elem_of_cons & Hfz);
          [congruence |].
        destruct IH as [_ IH]. by discriminate IH; exists z.
      * split; [| done]. intros _.
        destruct IH as [IH _]. destruct (IH eq_refl) as (z & Hz & Hfz).
        exists z. split; [by right | done].
    + split; [| done]. intros _. exists x. split; [by left | done].
Qed.

(** X20. The rank cell, [item.Rank.toLocaleString()], is a method call on
    the field: rendering the table body throws exactly when a visible row
    has no [Rank].  With the percentile field empty and a rank field that
    is set and does not parse to zero or to a negative number, no such row
    passes the filter, so the body of every page renders.  (A threshold of
    zero or below is left out: [null >= 0] holds in JavaScript, so a row
    with a [null] rank, which is outside the model, would pass it.) *)
Theorem table_body_needs_rank (toLocaleString : number -> string)
    (st : State) (h : Heap) :
  (tableBody toLocaleString (visible (render st h).1) = None
   <-> exists r, r ∈ visible (render st h).1 /\ Rank r = None)
  /\ (rankFilter st <> "" -> percentileFilter st = "" ->
      ~ Num.Le (Parse.parseInt (rankFilter st)) (Num.ofZ 0) ->
      is_Some (tableBody toLocaleString (visible (render st h).1))).
Proof.
  assert (Hiff : forall rows,
            tableBody toLocaleString rows = None
            <-> exists r, r ∈ rows /\ Rank r = None).
  { intros rows. unfold tableBody. rewrite mapM_None_exists.
    split; intros (r & Hr & Hn); exists r; (split; [done |]);
      unfold rowCells in *; by destruct (Rank r). }
  split; [apply Hiff |].
  intros Hr Hp _.
  destruct (tableBody toLocaleString (visible (render st h).1)) eqn:E;
    [by eexists |].
  apply Hiff in E as (r & Hin & Hnone).
  destruct (visible_is_a_segment_aux st h) as (before & after & Hseg).
  assert (Hr' : r ∈ filteredRows st h).
  { rewrite Hseg. rewrite !elem_of_app. auto. }
  rewrite filteredRows_pipeline, pipeline_Permutation in Hr'.
  apply list_elem_of_filter in Hr' as [[Hpass _] _].
  unfold passesThreshold, rankThreshold, percentileThreshold in Hpass.
  rewrite Hp in Hpass. repeat case_decide; try done.
  destruct Hpass as [[? ?] | [[] | Hrank]]; [done |].
  simpl in Hrank. rewrite Hnone in Hrank. simpl in Hrank.
  by apply Num_Le_NaN_r in Hrank.
Qed.

Lemma table_body_witness :
  let h : Heap :=
    {[ 1%positive :=
         [ row 3 50 "a" "x";
           {| Rank := None; Percentile := Some (Num.ofZ 60);
              Choice_Code := None; Institute_Name := Some "b";
              Course_Name := Some "y"; Type_ := None |} ] ]} in
  is_Some (tableBody (fun _ => "3")
             (visible (render (setRankFilter "2" (initialState 1%positive)) h).1))
  /\ tableBody (fun _ => "3") (visible (render (initialState 1%positive) h).1)
     = None.
Proof.
  intros h. split; [| by vm_compute].
  destruct (table_body_needs_rank (fun _ => "3")
              (setRankFilter "2" (initialState 1%positive)) h) as [_ H].
  apply H; [discriminate | reflexivity | by vm_compute].
Defined.

(** ** Ascending and descending *)

Lemma StronglySorted_reverse {A : Type} (R : A -> A -> Prop) (l : list A) :
  StronglySorted R l -> StronglySorted (fun x y => R y x) (reverse l).
Proof.
  induction 1 as [| x l Hs IH Hx]; [constructor |].
  rewrite reverse_cons. apply StronglySorted_app.
  split; [| split; [exact IH | repeat constructor]].
  intros y z Hy ->%list_elem_of_singleton.
  rewrite elem_of_reverse in Hy.
  rewrite Forall_forall in Hx. by apply Hx.
Qed.

#[global] Instance sameKey_dec f x y : Decision (sameKey f x y).
Proof. unfold sameKey. apply _. Defined.

Lemma distinctKeys_class (f : SortField) (x : CutoffData) (l : list CutoffData) :
  distinctKeys f l -> (length (filter (sameKey f x) l) <= 1)%nat.
Proof.
  induction l as [| a l IH]; intros Hd; [simpl; lia |].
  assert (Hl : distinctKeys f l).
  { intros i j y z Hi Hj Hs.
    assert (S i = S j) by (by eapply (Hd (S i) (S j))). lia. }
  rewrite filter_cons. destruct (decide (sameKey f x a)) as [Ha | Ha];
    [| by apply IH].
  rewrite (filter_none (sameKey f x) l); [simpl; lia |].
  apply Forall_forall. intros y Hy Hxy.
  apply list_elem_of_lookup in Hy as [j Hj].
  assert (Hay : sameKey f a y).
  { destruct Ha as [H1 H2], Hxy as [H3 H4].
    split; by apply (inOrder_trans f asc _ x). }
  assert (0%nat = S j) by (by eapply (Hd 0%nat (S j) a y)). lia.
Qed.

(** X21. When every key is a number and no two rows have the same key, the
    descending order is the ascending order read backwards.  (With equal
    keys it is not: the sort is stable in both directions.) *)
Theorem descending_reverses_ascending (f : SortField) (l : list CutoffData) :
  Forall (numericKey f) l -> distinctKeys f l ->
  sortStage f desc l = reverse (sortStage f asc l).
Proof.
  intros Hnum Hdist. symmetry. apply sortStage_unique; [done | | |].
  - unfold sortStage. by rewrite reverse_Permutation, sort_Permutation.
  - apply (StronglySorted_reverse (inOrder f asc)).
    apply sort_StronglySorted with (Q := numericKey f); [| | | done].
    + intros x y. apply SortCompare_inOrder.
    + intros x y. apply inOrder_total.
    + intros x y z _ _ _. apply inOrder_trans.
  - intros x Hx.
    assert (Hcls : forall k : list CutoffData,
              filter (fun y => inOrder f desc x y /\ inOrder f desc y x) k
              = filter (sameKey f x) k).
    { intros k. apply list_filter_iff. intros y. unfold sameKey. simpl. tauto. }
    rewrite !Hcls, filter_reverse.
    assert (Hsort : filter (sameKey f x) (sortStage f asc l)
                    = filter (sameKey f x) l).
    { apply filter_sort. intros y z _ _ [Hxy Hyx] [Hxz Hzx].
      rewrite SortCompare_Gt. intros (_ & _ & Hn). apply Hn.
      by apply (inOrder_trans f asc y x z). }
    rewrite Hsort. pose proof (distinctKeys_class f x l Hdist) as Hone.
    destruct (filter (sameKey f x) l) as [| a [| b k]]; simpl in *; [done.. | lia].
Qed.

Lemma descending_reverses_witness :
  let l := [row 3 50 "a" "x"; row 1 60 "b" "x"; row 2 70 "c" "x"] in
  sortStage FRank desc l = reverse (sortStage FRank asc l).
Proof.
  intros l. apply (descending_reverses_ascending FRank l).
  - repeat constructor.
  - intros i j x y Hi Hj [H1 H2].
    destruct i as [| [| [| i]]], j as [| [| [| j]]]; try done;
      simpl in Hi, Hj; injection Hi as <-; injection Hj as <-;
      exfalso; clear -H1 H2; vm_compute in H1, H2; tauto.
Defined.
